(** * gitversion: the version-resolution core of [pkg/version/version.go]

    A shallow embedding of the Go package [version] and the properties its
    specification states about it.  Go strings are byte strings; they are
    modelled by [string] (a list of 8-bit [ascii]).  The go-git repository
    handle, the filesystem and the clock are capability records: the
    package only ever consumes what they hand out. *)

From Stdlib Require Import Ascii String List Arith Lia Bool.
From stdpp Require Import base gmap strings list fin_maps.

Local Open Scope string_scope.
Local Open Scope list_scope.

(** ** Byte-string helpers (package [strings] of the Go library) *)

Module GoStrings.

(** [strings.ReplaceAll(s, old, new)] for a one-byte [old]. *)
Fixpoint ReplaceAll (s : string) (old : ascii) (new : string) : string :=
  match s with
  | EmptyString => EmptyString
  | String c rest =>
      if Ascii.eqb c old then new +:+ ReplaceAll rest old new
      else String c (ReplaceAll rest old new)
  end.

(** [s[:n]]; the callers only slice within bounds. *)
Fixpoint take (n : nat) (s : string) : string :=
  match n, s with
  | S k, String c rest => String c (take k rest)
  | _, _ => EmptyString
  end.

(** Every byte of [s] satisfies [p]. *)
Fixpoint forallb (p : ascii -> bool) (s : string) : bool :=
  match s with
  | EmptyString => true
  | String c rest => p c && forallb p rest
  end.

(** Keep the bytes that satisfy [p]. *)
Fixpoint filter (p : ascii -> bool) (s : string) : string :=
  match s with
  | EmptyString => EmptyString
  | String c rest => if p c then String c (filter p rest) else filter p rest
  end.

(** [strings.TrimRight(s, "/")]: drop the trailing run of [c]. *)
Fixpoint TrimRight (s : string) (c : ascii) : string :=
  match s with
  | EmptyString => EmptyString
  | String a rest =>
      match TrimRight rest c with
      | EmptyString => if Ascii.eqb a c then EmptyString else String a EmptyString
      | r => String a r
      end
  end.

(** [strings.LastIndex(s, "/")] for a one-byte needle; [None] is Go's -1. *)
Fixpoint LastIndex (s : string) (c : ascii) : option nat :=
  match s with
  | EmptyString => None
  | String a rest =>
      match LastIndex rest c with
      | Some i => Some (S i)
      | None => if Ascii.eqb a c then Some 0 else None
      end
  end.

End GoStrings.

(** ** Character classes of the slug pattern *)

Definition isLower (c : ascii) : bool :=
  let n := nat_of_ascii c in Nat.leb 97 n && Nat.leb n 122.
Definition isUpper (c : ascii) : bool :=
  let n := nat_of_ascii c in Nat.leb 65 n && Nat.leb n 90.
Definition isDigit (c : ascii) : bool :=
  let n := nat_of_ascii c in Nat.leb 48 n && Nat.leb n 57.
Definition isAlnum (c : ascii) : bool := isLower c || isUpper c || isDigit c.

(** The class [a-zA-Z0-9-]. *)
Definition slugChar (c : ascii) : bool := isAlnum c || Ascii.eqb c "-".

(** [regexp.MustCompile("[^a-zA-Z0-9-]+").ReplaceAllString(s, repl)]:
    every maximal run of bytes outside the class is one match and is
    replaced by [repl].  [inRun] records that the previous byte already
    belonged to the current match.  (A byte of a multi-byte or invalid
    UTF-8 sequence is at least 128, so it is outside the class at the rune
    level as well as at the byte level.) *)
Fixpoint regReplaceAllString (inRun : bool) (s repl : string) : string :=
  match s with
  | EmptyString => EmptyString
  | String c rest =>
      if slugChar c then String c (regReplaceAllString false rest repl)
      else if inRun then regReplaceAllString true rest repl
      else repl +:+ regReplaceAllString true rest repl
  end.

(** [createBranchSlug]: replace [/] and [_] with [-], keep only
    alphanumerics and [-]. *)
Definition createBranchSlug (branch : string) : string :=
  let slug := GoStrings.ReplaceAll branch "/" "-" in
  let slug := GoStrings.ReplaceAll slug "_" "-" in
  let slug := regReplaceAllString false slug "" in
  slug.

(** The description the specification gives of the slug: a bytewise map
    followed by a bytewise deletion. *)
Definition slugSubst (c : ascii) : ascii :=
  if Ascii.eqb c "/" || Ascii.eqb c "_" then "-"%char else c.

Fixpoint mapBytes (f : ascii -> ascii) (s : string) : string :=
  match s with
  | EmptyString => EmptyString
  | String c rest => String (f c) (mapBytes f rest)
  end.

Definition slugSpec (branch : string) : string :=
  GoStrings.filter slugChar (mapBytes slugSubst branch).

(** ** Decimal rendering ([%d] of package [fmt], the integer fields of
    [time.Format]) *)

Definition digitChar (d : nat) : ascii := ascii_of_nat (48 + d).

(** Digits of [n], most significant first, pushed in front of [acc]. *)
Fixpoint itoaFuel (fuel n : nat) (acc : string) : string :=
  match fuel with
  | O => acc
  | S f =>
      let acc' := String (digitChar (n mod 10)) acc in
      if Nat.ltb n 10 then acc' else itoaFuel f (n / 10) acc'
  end.

(** [strconv.Itoa] on a non-negative integer.  [n] itself is more fuel
    than [n] has digits. *)
Definition itoa (n : nat) : string := itoaFuel (S n) n "".

Fixpoint zeros (k : nat) : string :=
  match k with O => "" | S k' => String "0" (zeros k') end.

(** The zero-padded field of a time layout: at least [width] digits. *)
Definition appendInt (n width : nat) : string :=
  let d := itoa n in zeros (width - String.length d) +:+ d.

(** ** The clock *)

(** A [time.Time] in UTC, broken into its calendar fields. *)
Record Time := mkTime {
  t_year : nat; t_month : nat; t_day : nat;
  t_hour : nat; t_minute : nat; t_second : nat
}.

(** [t.Format("20060102150405")] *)
Definition formatStamp (t : Time) : string :=
  appendInt (t_year t) 4 +:+ appendInt (t_month t) 2 +:+ appendInt (t_day t) 2
  +:+ appendInt (t_hour t) 2 +:+ appendInt (t_minute t) 2
  +:+ appendInt (t_second t) 2.

(** [t.Format("2006-01-02T15:04:05Z")] *)
Definition formatBuildTime (t : Time) : string :=
  appendInt (t_year t) 4 +:+ "-" +:+ appendInt (t_month t) 2 +:+ "-"
  +:+ appendInt (t_day t) 2 +:+ "T" +:+ appendInt (t_hour t) 2 +:+ ":"
  +:+ appendInt (t_minute t) 2 +:+ ":" +:+ appendInt (t_second t) 2 +:+ "Z".

(** The calendar ranges of a clock reading (years of four digits). *)
Definition validTime (t : Time) : bool :=
  Nat.ltb (t_year t) (100 * 100)
  && Nat.leb 1 (t_month t) && Nat.leb (t_month t) 12
  && Nat.leb 1 (t_day t) && Nat.leb (t_day t) 31
  && Nat.leb (t_hour t) 23 && Nat.leb (t_minute t) 59
  && Nat.leb (t_second t) 59.

(** ** Errors *)

Inductive result (A : Type) : Type :=
| Ok (a : A)
| Err (msg : string).
Arguments Ok {A} a.
Arguments Err {A} msg.

Definition bind {A B : Type} (r : result A) (k : A -> result B) : result B :=
  match r with
  | Ok a => k a
  | Err e => Err e
  end.

(** [wrap ctx r]: [fmt.Errorf(ctx + ": %w", err)] on the error path. *)
Definition wrap {A : Type} (ctx : string) (r : result A) : result A :=
  match r with
  | Ok a => Ok a
  | Err e => Err (ctx +:+ ": " +:+ e)
  end.

Notation "'try' x ':=' r 'in' k" := (bind r (fun x => k))
  (at level 10, x name, r at level 100, k at level 200).

(** ** The go-git capability: what a [*git.Repository] hands out *)

(** [plumbing.Hash] in its [String()] form: forty lower-case hex digits. *)
Abbreviation Hash := string (only parsing).

Definition isHex (c : ascii) : bool :=
  isDigit c || (let n := nat_of_ascii c in Nat.leb 97 n && Nat.leb n 102).

Definition wfHash (h : Hash) : bool :=
  Nat.eqb (String.length h) 40 && GoStrings.forallb isHex h.

(** What a tag reference points at.  The id stored in the reference
    ([ref.Hash()]) is the tagged commit for a lightweight tag and the
    tag object for an annotated one; an annotated tag object in turn
    names the commit it tags. *)
Inductive TagObject :=
| Lightweight
| Annotated (commit : Hash).

(** A [*plumbing.Reference] under [refs/tags/]. *)
Record TagRef := mkTagRef {
  tag_Short : string;        (* ref.Name().Short() *)
  tag_Hash : Hash;           (* ref.Hash() *)
  tag_Object : TagObject
}.

(** The commit a tag marks. *)
Definition tag_Commit (r : TagRef) : Hash :=
  match tag_Object r with
  | Lightweight => tag_Hash r
  | Annotated c => c
  end.

(** A [storer.ReferenceIter] over tags: the references it yields, in
    order, and the error its iteration ends with, if any. *)
Record TagIter := mkTagIter {
  tags_yield : list TagRef;
  tags_err : option string
}.

(** An [object.CommitIter]: the commits it yields from [From] on, in
    order, and the error the walk ends with, if any. *)
Record CommitIter := mkCommitIter {
  commits_yield : list Hash;
  commits_err : option string
}.

(** [git.StatusCode] *)
Inductive StatusCode :=
| Unmodified | Untracked | Modified | Added | Deleted | Renamed | Copied
| UpdatedButUnmerged.

Definition StatusCode_eqb (a b : StatusCode) : bool :=
  match a, b with
  | Unmodified, Unmodified | Untracked, Untracked | Modified, Modified
  | Added, Added | Deleted, Deleted | Renamed, Renamed | Copied, Copied
  | UpdatedButUnmerged, UpdatedButUnmerged => true
  | _, _ => false
  end.

(** [git.FileStatus] *)
Record FileStatus := mkFileStatus {
  Staging : StatusCode;
  Worktree : StatusCode
}.

(** [git.Status] is a Go map from path to file status; [range] visits
    its entries in some order, here the order of the list. *)
Abbreviation Status := (list (string * FileStatus)) (only parsing).

(** [*git.Worktree] *)
Record WorktreeHandle := mkWorktree {
  wt_Status : result Status
}.

(** The reference [repo.Head()] resolves to. *)
Record HeadRef := mkHeadRef {
  head_Hash : Hash;          (* head.Hash().String() *)
  head_IsBranch : bool;      (* head.Name().IsBranch() *)
  head_Short : string        (* head.Name().Short() *)
}.

(** An entry of [repo.References()]. *)
Record RefEntry := mkRefEntry {
  ref_IsBranch : bool;
  ref_Short : string
}.

Record Repository := mkRepository {
  repo_Head : result HeadRef;
  repo_Tags : result TagIter;
  repo_Log : Hash -> result CommitIter;
  repo_Worktree : result WorktreeHandle;
  (* repo.Reference("refs/remotes/origin/HEAD", true): the short name of
     the reference it resolves to *)
  repo_OriginHEAD : result string;
  repo_References : result (list RefEntry)
}.

(** ** [getGitDescribe] *)

(** The loop [tagRefs.ForEach] runs over the tag map. *)
Definition buildTagMap (refs : list TagRef) : gmap string string :=
  foldl (fun m ref => <[tag_Hash ref := tag_Short ref]> m) ∅ refs.

(** The loop [commitIter.ForEach] runs: [distance] and [foundTag] are the
    two captured variables; finding a tag stops the iteration.  [distance]
    is a Go [int]; it counts commits of one log, far below 2^63, so it is
    a [nat] here. *)
Fixpoint walkLog (tagMap : gmap string string) (commits : list Hash)
    (distance : nat) : nat * string :=
  match commits with
  | [] => (distance, "")
  | commit :: rest =>
      match tagMap !! commit with
      | Some tagName => (distance, tagName)
      | None => walkLog tagMap rest (S distance)
      end
  end.

(** [hash.String()[:7]] *)
Definition shortHash (hash : Hash) : string := GoStrings.take 7 hash.

Definition getGitDescribe (repo : Repository) (hash : Hash) : string * string :=
  match repo_Tags repo with
  | Err _ => ("", "")
  | Ok tagRefs =>
      let tagMap := buildTagMap (tags_yield tagRefs) in
      match tags_err tagRefs with
      | Some _ => ("", "")
      | None =>
          match tagMap !! hash with
          | Some tagName => (tagName, tagName)
          | None =>
              match repo_Log repo hash with
              | Err _ => ("", "")
              | Ok commitIter =>
                  let '(distance, foundTag) :=
                    walkLog tagMap (commits_yield commitIter) 0 in
                  if negb (String.eqb foundTag "") then
                    let describe :=
                      foundTag +:+ "-" +:+ itoa distance +:+ "-g"
                      +:+ shortHash hash in
                    (describe, foundTag)
                  else ("", "")
              end
          end
      end
  end.

(** ** [hasUncommittedChanges] *)

Definition fileDirty (fileStatus : FileStatus) : bool :=
  (negb (StatusCode_eqb (Staging fileStatus) Untracked)
   && negb (StatusCode_eqb (Staging fileStatus) Unmodified))
  || (negb (StatusCode_eqb (Worktree fileStatus) Untracked)
      && negb (StatusCode_eqb (Worktree fileStatus) Unmodified)).

Fixpoint anyDirty (status : Status) : bool :=
  match status with
  | [] => false
  | (_, fileStatus) :: rest => if fileDirty fileStatus then true else anyDirty rest
  end.

Definition hasUncommittedChanges (repo : Repository) : bool :=
  match repo_Worktree repo with
  | Err _ => false
  | Ok worktree =>
      match wt_Status worktree with
      | Err _ => false
      | Ok status => anyDirty status
      end
  end.

(** ** [detectDefaultBranch] *)

Definition stripPrefix (pre s : string) : string :=
  if String.prefix pre s then
    String.substring (String.length pre) (String.length s - String.length pre) s
  else s.

Definition branchExists (entries : list RefEntry) (branch : string) : bool :=
  existsb (fun r => ref_IsBranch r && String.eqb (ref_Short r) branch) entries.

Definition detectDefaultBranch (repo : Repository) : string :=
  match repo_OriginHEAD repo with
  | Ok refName => stripPrefix "origin/" refName
  | Err _ =>
      match repo_References repo with
      | Ok refs =>
          if branchExists refs "main" then "main"
          else if branchExists refs "master" then "master"
          else "main"
      | Err _ => "main"
      end
  end.

(** ** [parentDir] and the walk up to the repository root *)

Definition parentDir (path : string) : string :=
  if String.eqb path "/" then "/"
  else
    let path := GoStrings.TrimRight path "/" in
    match GoStrings.LastIndex path "/" with
    | None => "/"
    | Some O => "/"
    | Some idx => GoStrings.take idx path
    end.

(** [os.FileInfo], as far as it is looked at. *)
Record FileInfo := mkFileInfo {
  fi_IsDir : bool;
  fi_IsRegular : bool
}.

(** The process environment of one call. *)
Record Env := mkEnv {
  env_Abs : string -> result string;        (* filepath.Abs *)
  env_Stat : string -> result FileInfo;     (* os.Stat *)
  env_PlainOpen : string -> result Repository;  (* git.PlainOpen *)
  env_Now : nat -> Time                     (* k-th time.Now().UTC() *)
}.

Definition hasGitMarker (env : Env) (absPath : string) : bool :=
  match env_Stat env (absPath +:+ "/.git") with
  | Ok fi => fi_IsDir fi || fi_IsRegular fi
  | Err _ => false
  end.

(** The [for] loop of [GetVersionInfo].  [Some (Ok root)] is the [break],
    [Some (Err _)] the return at the filesystem root, [None] is fuel
    running out (which [findGitRoot_total] excludes). *)
Fixpoint findGitRootFuel (env : Env) (fuel : nat) (origPath absPath : string)
    : option (result string) :=
  match fuel with
  | O => None
  | S fuel' =>
      if hasGitMarker env absPath then Some (Ok absPath)
      else
        let parent := parentDir absPath in
        if String.eqb parent absPath then
          Some (Err ("failed to open repository: no .git found from "
                     +:+ origPath +:+ " upwards"))
        else findGitRootFuel env fuel' origPath parent
  end.

Definition findGitRoot (env : Env) (absPath : string) : option (result string) :=
  findGitRootFuel env (String.length absPath + 2) absPath absPath.

(** ** [GetVersionInfo] *)

Record Info := mkInfo {
  Version : string;
  GitCommit : string;
  GitCommitShort : string;
  GitBranch : string;
  GitBranchSlug : string;
  GitDescribe : string;
  LatestTag : string;
  BuildTime : string;
  IsDirty : bool;
  DefaultBranch : string
}.

(** The version before the dirty suffix (lines 99-109). *)
Definition baseVersion (branch defaultBranch describe slug short : string)
    : string :=
  if String.eqb branch defaultBranch then
    if negb (String.eqb describe "") then describe
    else slug +:+ "-g" +:+ short
  else slug +:+ "-g" +:+ short.

(** Everything after the repository has been opened. *)
Definition resolve (env : Env) (repo : Repository) (defaultBranch : string)
    : result Info :=
  let buildTime := formatBuildTime (env_Now env 0) in
  let defaultBranch :=
    if String.eqb defaultBranch "" then detectDefaultBranch repo
    else defaultBranch in
  try head := wrap "failed to get HEAD" (repo_Head repo) in
  let commit := head_Hash head in
  let short := shortHash (head_Hash head) in
  let branch := if head_IsBranch head then head_Short head else "HEAD" in
  let slug := createBranchSlug branch in
  let '(describe, latestTag) := getGitDescribe repo (head_Hash head) in
  let dirty := hasUncommittedChanges repo in
  let version := baseVersion branch defaultBranch describe slug short in
  let version :=
    if dirty then version +:+ "-" +:+ formatStamp (env_Now env 1)
    else version in
  Ok {| Version := version; GitCommit := commit; GitCommitShort := short;
        GitBranch := branch; GitBranchSlug := slug; GitDescribe := describe;
        LatestTag := latestTag; BuildTime := buildTime; IsDirty := dirty;
        DefaultBranch := defaultBranch |}.

(** [GetVersionInfo]; [None] only if the walk up ran out of fuel. *)
Definition GetVersionInfo (env : Env) (repoPath defaultBranch : string)
    : option (result Info) :=
  match wrap "failed to get absolute path" (env_Abs env repoPath) with
  | Err e => Some (Err e)
  | Ok absPath =>
      match findGitRoot env absPath with
      | None => None
      | Some (Err e) => Some (Err e)
      | Some (Ok gitRoot) =>
          Some (try repo := wrap "failed to open repository"
                                 (env_PlainOpen env gitRoot) in
                resolve env repo defaultBranch)
      end
  end.

(** ** The methods of [Info] *)

(** [String] *)
Definition Info_String (i : Info) : string := Version i.

(** The line feed of the raw string literal. *)
Definition newline : string := String (ascii_of_nat 10) "".

(** [DetailedString] *)
Definition DetailedString (i : Info) : string :=
  let dirtyStr := if IsDirty i then "dirty" else "clean" in
  let tagStr := if String.eqb (LatestTag i) "" then "(none)" else LatestTag i in
  "Version:        " +:+ Version i +:+ newline
  +:+ "Commit:         " +:+ GitCommit i +:+ newline
  +:+ "Branch:         " +:+ GitBranch i +:+ newline
  +:+ "Default Branch: " +:+ DefaultBranch i +:+ newline
  +:+ "Latest Tag:     " +:+ tagStr +:+ newline
  +:+ "Build Time:     " +:+ BuildTime i +:+ newline
  +:+ "Dirty:          " +:+ dirtyStr.

(** ** Notions the specification speaks in *)

(** The commits reachable from [hash]: [hash] itself and what the history
    walk from it yields. *)
Definition reachable (repo : Repository) (hash c : Hash) : Prop :=
  c = hash \/
  exists commitIter,
    repo_Log repo hash = Ok commitIter /\ In c (commits_yield commitIter).

(** Some tag of the repository marks a commit reachable from [hash]. *)
Definition tagReachable (repo : Repository) (hash : Hash) : Prop :=
  exists tagRefs ref,
    repo_Tags repo = Ok tagRefs /\ In ref (tags_yield tagRefs)
    /\ reachable repo hash (tag_Commit ref).

(** The tag map the Describe Engine consults, when the tags can be read. *)
Definition tagMapOf (repo : Repository) : option (gmap string string) :=
  match repo_Tags repo with
  | Ok tagRefs =>
      match tags_err tagRefs with
      | None => Some (buildTagMap (tags_yield tagRefs))
      | Some _ => None
      end
  | Err _ => None
  end.

(** The commits of a traversal path that lie strictly between its first
    commit (HEAD) and the first tagged commit: HEAD is dropped and the
    untagged commits up to the tag are counted. *)
Fixpoint untaggedPrefix (tagMap : gmap string string) (commits : list Hash)
    : nat :=
  match commits with
  | [] => 0
  | c :: rest =>
      match tagMap !! c with
      | Some _ => 0
      | None => S (untaggedPrefix tagMap rest)
      end
  end.

Definition strictlyBetween (tagMap : gmap string string)
    (commits : list Hash) : nat :=
  untaggedPrefix tagMap (tail commits).

(** The name of the last reference of the enumeration that points at
    [hash]. *)
Fixpoint lastTagFor (hash : Hash) (refs : list TagRef) : option string :=
  match refs with
  | [] => None
  | ref :: rest =>
      match lastTagFor hash rest with
      | Some t => Some t
      | None => if String.eqb (tag_Hash ref) hash then Some (tag_Short ref)
                else None
      end
  end.

Definition notSlash (c : ascii) : bool := negb (Ascii.eqb c "/").

(** A directory entry name: not empty, no separator. *)
Definition validName (name : string) : bool :=
  negb (String.eqb name "") && GoStrings.forallb notSlash name.

(** [filepath.Join(dir, name)] for a clean absolute [dir]. *)
Definition joinPath (dir name : string) : string :=
  if String.eqb dir "/" then "/" +:+ name else dir +:+ "/" +:+ name.

(** The directory reached from [root] by descending through [names]. *)
Definition descend (root : string) (names : list string) : string :=
  foldl joinPath root names.

(** The directories strictly below [root] on the way to
    [descend root names]. *)
Fixpoint below (root : string) (names : list string) : list string :=
  match names with
  | [] => []
  | n :: rest => joinPath root n :: below (joinPath root n) rest
  end.

(** [path] leads to the repository [repo]: it can be made absolute, the
    walk up finds a root, and the root opens as [repo]. *)
Definition opened (env : Env) (path : string) (repo : Repository) : Prop :=
  exists absPath gitRoot,
    env_Abs env path = Ok absPath
    /\ findGitRoot env absPath = Some (Ok gitRoot)
    /\ env_PlainOpen env gitRoot = Ok repo.

(** [name] is the short name of one of the repository's tags. *)
Definition isTagName (repo : Repository) (name : string) : Prop :=
  exists tagRefs ref,
    repo_Tags repo = Ok tagRefs /\ In ref (tags_yield tagRefs)
    /\ tag_Short ref = name.

(** The three shapes of a describe result [(describe, latestTag)]. *)
Definition shapeEmpty (describe latestTag : string) : Prop :=
  describe = "" /\ latestTag = "".

Definition shapeExact (repo : Repository) (describe latestTag : string) : Prop :=
  isTagName repo latestTag /\ latestTag <> "" /\ describe = latestTag.

Definition shapeDistance (repo : Repository) (hash : Hash)
    (describe latestTag : string) : Prop :=
  isTagName repo latestTag /\ latestTag <> ""
  /\ exists d : nat,
       describe = latestTag +:+ "-" +:+ itoa d +:+ "-g" +:+ shortHash hash.

(** The describe string as the specification words its distance: the
    number of commits strictly between the found tag and HEAD on the
    traversal path. *)
Definition describeBySpec (tagMap : gmap string string) (commits : list Hash)
    (tag : string) (hash : Hash) : string :=
  tag +:+ "-" +:+ itoa (strictlyBetween tagMap commits) +:+ "-g"
  +:+ shortHash hash.

(** The working-tree status cannot be computed: no worktree (a bare
    repository), or the status read fails. *)
Definition statusUnavailable (repo : Repository) : Prop :=
  (exists e, repo_Worktree repo = Err e)
  \/ (exists worktree e,
        repo_Worktree repo = Ok worktree /\ wt_Status worktree = Err e).

(** The directory [k] steps above [path]. *)
Definition ancestor (k : nat) (path : string) : string :=
  Nat.iter k parentDir path.

(** The message of the walk that reaches the filesystem root. *)
Definition notFoundMessage (origPath : string) : string :=
  "failed to open repository: no .git found from " +:+ origPath +:+ " upwards".

(** How often the byte [c] occurs in [s]. *)
Fixpoint countByte (c : ascii) (s : string) : nat :=
  match s with
  | EmptyString => 0
  | String a rest => (if Ascii.eqb a c then 1 else 0) + countByte c rest
  end.

(** A status code the dirty check passes over. *)
Definition passedOver (code : StatusCode) : bool :=
  StatusCode_eqb code Untracked || StatusCode_eqb code Unmodified.

(** A byte that leaves no trace in a slug. *)
Definition slugDropped (c : ascii) : bool :=
  negb (slugChar c || Ascii.eqb c "/" || Ascii.eqb c "_").

(** The current branch: the short name of HEAD, or the sentinel in the
    detached state. *)
Definition currentBranch (head : HeadRef) : string :=
  if head_IsBranch head then head_Short head else "HEAD".

(** The default branch of a resolution: the argument, or what is detected
    when the argument is empty. *)
Definition trunkOf (repo : Repository) (defaultBranch : string) : string :=
  if String.eqb defaultBranch "" then detectDefaultBranch repo
  else defaultBranch.

(** Some tag of the enumeration marks the commit [c]. *)
Definition marks (refs : list TagRef) (c : Hash) : bool :=
  existsb (fun ref => String.eqb (tag_Commit ref) c) refs.

(** The number of commits a traversal visits before it meets a commit
    that a tag marks. *)
Fixpoint visitedBeforeTag (refs : list TagRef) (commits : list Hash) : nat :=
  match commits with
  | [] => 0
  | c :: rest => if marks refs c then 0 else S (visitedBeforeTag refs rest)
  end.

(** ** Sample repositories *)

Module Sample.

Definition c0 : Hash := "1197955e4244c18bdb9b375076bcb6ca05414672".
Definition c1 : Hash := "2f22765d04931a078909145ca628d2264c852d7d".
Definition c2 : Hash := "6b1f53303a732ccc8c6aae6640399827c15250e3".
Definition c3 : Hash := "a625406f6977d45c1391b078f4d3656e0b75bfcb".
Definition c4 : Hash := "e4666a670f042877c67a84473a71675ee0950a08".
Definition c5 : Hash := "8dc29fc58c0bd99068c2e5c752aa61521d4f11ce".
Definition tagObject : Hash := "f0f705ab066fbe063e0fa7be229ae035d1d97c2c".

(** The log of a linear history [c0 <- c1 <- ... <- c5] from [hash]. *)
Definition linearLog (hash : Hash) : result CommitIter :=
  let all := [c5; c4; c3; c2; c1; c0] in
  let fix from (l : list Hash) : list Hash :=
    match l with
    | [] => []
    | c :: rest => if String.eqb c hash then l else from rest
    end in
  match from all with
  | [] => Err "object not found"
  | l => Ok (mkCommitIter l None)
  end.

Definition cleanTree : result WorktreeHandle :=
  Ok (mkWorktree (Ok [("test.txt", mkFileStatus Unmodified Unmodified)])).

Definition dirtyTree : result WorktreeHandle :=
  Ok (mkWorktree (Ok [("new.txt", mkFileStatus Untracked Untracked);
                      ("test.txt", mkFileStatus Unmodified Modified)])).

(** A bare repository has no worktree. *)
Definition noTree : result WorktreeHandle := Err "worktree not available in a bare repository".

Definition repoAt (hash : Hash) (branch : string) (tags : list TagRef)
    (tree : result WorktreeHandle) : Repository :=
  {| repo_Head := Ok (mkHeadRef hash true branch);
     repo_Tags := Ok (mkTagIter tags None);
     repo_Log := linearLog;
     repo_Worktree := tree;
     repo_OriginHEAD := Err "reference not found";
     repo_References := Ok [mkRefEntry true "main"; mkRefEntry true branch] |}.

Definition v100 : TagRef := mkTagRef "v1.0.0" c0 Lightweight.
Definition v100annotated : TagRef := mkTagRef "v1.0.0" tagObject (Annotated c0).

(** HEAD five commits past the lightweight tag [v1.0.0], clean tree. *)
Definition fivePast : Repository := repoAt c5 "main" [v100] cleanTree.

(** HEAD exactly at [v1.0.0], created with [git tag -a]. *)
Definition annotatedAtHead : Repository :=
  repoAt c0 "main" [v100annotated] cleanTree.


Definition noon : Time := mkTime 2025 11 25 11 59 3.

(** One repository at [/repo], with a working directory [/repo/pkg/version]. *)
Definition envOf (repo : Repository) : Env :=
  {| env_Abs := fun p => Ok p;
     env_Stat := fun p =>
       if String.eqb p "/repo/.git" then Ok (mkFileInfo true false)
       else Err "no such file or directory";
     env_PlainOpen := fun p =>
       if String.eqb p "/repo" then Ok repo else Err "repository does not exist";
     env_Now := fun _ => noon |}.

(** The working directory the samples are resolved from. *)
Definition workdir : string := "/repo/pkg/version".

(** Five commits past [v1.0.0] with a modified tracked file. *)
Definition dirtyFivePast : Repository := repoAt c5 "main" [v100] dirtyTree.

Definition dirtyInfo : Info :=
  {| Version := "v1.0.0-5-g8dc29fc-20251125115903";
     GitCommit := c5; GitCommitShort := "8dc29fc";
     GitBranch := "main"; GitBranchSlug := "main";
     GitDescribe := "v1.0.0-5-g8dc29fc"; LatestTag := "v1.0.0";
     BuildTime := "2025-11-25T11:59:03Z"; IsDirty := true;
     DefaultBranch := "main" |}.

(** HEAD exactly at [v1.0.0], on a feature branch. *)
Definition taggedFeature : Repository :=
  repoAt c0 "feature/x" [v100] cleanTree.

Definition featureInfo : Info :=
  {| Version := "feature-x-g1197955";
     GitCommit := c0; GitCommitShort := "1197955";
     GitBranch := "feature/x"; GitBranchSlug := "feature-x";
     GitDescribe := "v1.0.0"; LatestTag := "v1.0.0";
     BuildTime := "2025-11-25T11:59:03Z"; IsDirty := false;
     DefaultBranch := "main" |}.

(** HEAD exactly at [v1.0.0], on the default branch, clean. *)
Definition exactClean : Repository := repoAt c0 "main" [v100] cleanTree.

Definition exactInfo : Info :=
  {| Version := "v1.0.0";
     GitCommit := c0; GitCommitShort := "1197955";
     GitBranch := "main"; GitBranchSlug := "main";
     GitDescribe := "v1.0.0"; LatestTag := "v1.0.0";
     BuildTime := "2025-11-25T11:59:03Z"; IsDirty := false;
     DefaultBranch := "main" |}.

(** The same without a worktree. *)
Definition bare : Repository := repoAt c0 "main" [v100] noTree.

(** No tag at all. *)
Definition untagged : Repository := repoAt c5 "feature/x" [] dirtyTree.

(** The tag listing fails. *)
Definition tagsUnreadable : Repository :=
  {| repo_Head := Ok (mkHeadRef c5 true "main");
     repo_Tags := Err "permission denied";
     repo_Log := linearLog;
     repo_Worktree := cleanTree;
     repo_OriginHEAD := Ok "origin/main";
     repo_References := Err "permission denied" |}.

(** A detached HEAD at [c3]. *)
Definition detached : Repository :=
  {| repo_Head := Ok (mkHeadRef c3 false "HEAD");
     repo_Tags := Ok (mkTagIter [v100] None);
     repo_Log := linearLog;
     repo_Worktree := cleanTree;
     repo_OriginHEAD := Ok "origin/main";
     repo_References := Ok [mkRefEntry true "main"] |}.

(** HEAD cannot be resolved: a repository without commits. *)
Definition unborn : Repository :=
  {| repo_Head := Err "reference not found";
     repo_Tags := Ok (mkTagIter [] None);
     repo_Log := linearLog;
     repo_Worktree := cleanTree;
     repo_OriginHEAD := Err "reference not found";
     repo_References := Ok [] |}.

(** Only [master] exists locally and there is no remote HEAD. *)
Definition masterOnly : Repository :=
  {| repo_Head := Ok (mkHeadRef c5 true "master");
     repo_Tags := Ok (mkTagIter [] None);
     repo_Log := linearLog;
     repo_Worktree := cleanTree;
     repo_OriginHEAD := Err "reference not found";
     repo_References :=
       Ok [mkRefEntry false "v1.0.0"; mkRefEntry true "master"] |}.

End Sample.

(** *** Slug lemmas *)

Lemma regReplace_empty_filter (b : bool) (s : string) :
  regReplaceAllString b s "" = GoStrings.filter slugChar s.
Proof.
  revert b; induction s as [|c s IH]; intros b; simpl; [reflexivity|].
  destruct (slugChar c); [now rewrite IH|].
  destruct b; simpl; apply IH.
Qed.

Lemma ReplaceAll_twice_map (s : string) :
  GoStrings.ReplaceAll (GoStrings.ReplaceAll s "/" "-") "_" "-"
  = mapBytes slugSubst s.
Proof.
  induction s as [|c s IH]; [reflexivity|].
  cbn [GoStrings.ReplaceAll mapBytes]. unfold slugSubst.
  destruct (Ascii.eqb c "/") eqn:E1.
  - change ("-" +:+ GoStrings.ReplaceAll s "/" "-")
      with (String "-" (GoStrings.ReplaceAll s "/" "-")).
    cbn [GoStrings.ReplaceAll orb].
    change (Ascii.eqb "-" "_") with false. cbv iota. now rewrite IH.
  - cbn [GoStrings.ReplaceAll orb].
    destruct (Ascii.eqb c "_") eqn:E2.
    + change ("-" +:+ ?x) with (String "-" x). now rewrite IH.
    + now rewrite IH.
Qed.

Lemma filter_forallb (p : ascii -> bool) (s : string) :
  GoStrings.forallb p (GoStrings.filter p s) = true.
Proof.
  induction s as [|c s IH]; simpl; [reflexivity|].
  destruct (p c) eqn:E; simpl; [rewrite E|]; exact IH.
Qed.

(** C4. For every branch name, [createBranchSlug] is: first every [/] and
    every [_] becomes [-], then every byte that is not an ASCII letter, a
    digit or [-] is deleted without replacement; hence the slug consists
    of bytes of [A-Za-z0-9-] only, and
    [createBranchSlug "feature/test@123" = "feature-test123"]. *)
Theorem createBranchSlug_spec :
  (forall branch : string,
      createBranchSlug branch = slugSpec branch
      /\ GoStrings.forallb slugChar (createBranchSlug branch) = true)
  /\ createBranchSlug "feature/test@123" = "feature-test123".
Proof.
  split; [|reflexivity].
  intros branch. unfold createBranchSlug, slugSpec.
  rewrite regReplace_empty_filter, ReplaceAll_twice_map.
  split; [reflexivity|apply filter_forallb].
Qed.

(** ** Facts about byte strings *)

Section StringFacts.

(** stdpp keeps [+:+] folded under [simpl]; these two equations unfold it. *)
Lemma str_app_cons (c : ascii) (s t : string) :
  String c s +:+ t = String c (s +:+ t).
Proof. reflexivity. Qed.

Lemma str_app_nil_l (t : string) : "" +:+ t = t.
Proof. reflexivity. Qed.

Lemma str_length_app (s t : string) :
  String.length (s +:+ t) = String.length s + String.length t.
Proof.
  induction s as [|c s IH]; [reflexivity|].
  rewrite str_app_cons. simpl. now rewrite IH.
Qed.

Lemma str_app_assoc (s t u : string) : (s +:+ t) +:+ u = s +:+ t +:+ u.
Proof.
  induction s as [|c s IH]; [reflexivity|].
  rewrite !str_app_cons. now f_equal.
Qed.

Lemma str_app_nil_r (s : string) : s +:+ "" = s.
Proof.
  induction s as [|c s IH]; [reflexivity|].
  rewrite str_app_cons. now f_equal.
Qed.

Lemma forallb_app (p : ascii -> bool) (s t : string) :
  GoStrings.forallb p (s +:+ t) = GoStrings.forallb p s && GoStrings.forallb p t.
Proof.
  induction s as [|c s IH]; [reflexivity|].
  rewrite str_app_cons. simpl. now rewrite IH, andb_assoc.
Qed.

Lemma take_length (n : nat) (s : string) :
  String.length (GoStrings.take n s) = Nat.min n (String.length s).
Proof.
  revert s; induction n as [|n IH]; intros [|c s]; simpl; try reflexivity.
  now rewrite IH.
Qed.

Lemma take_forallb (p : ascii -> bool) (n : nat) (s : string) :
  GoStrings.forallb p s = true -> GoStrings.forallb p (GoStrings.take n s) = true.
Proof.
  revert s; induction n as [|n IH]; intros [|c s]; simpl; try reflexivity.
  intros [Hc Hs]%andb_true_iff. rewrite Hc. now apply IH.
Qed.

Lemma take_app_length (s t : string) :
  GoStrings.take (String.length s) (s +:+ t) = s.
Proof.
  induction s as [|c s IH]; [now destruct t|].
  rewrite str_app_cons. simpl. now rewrite IH.
Qed.

Lemma app_ne_self (s t : string) : t <> "" -> s +:+ t <> s.
Proof.
  intros Ht E. apply (f_equal String.length) in E.
  rewrite str_length_app in E. destruct t; [congruence|simpl in E; lia].
Qed.

Lemma prefix_app (s t : string) : String.prefix s (s +:+ t) = true.
Proof.
  induction s as [|c s IH]; [now destruct t|].
  rewrite str_app_cons. simpl.
  destruct (ascii_dec c c); [exact IH|congruence].
Qed.

Lemma eqb_empty_false (s : string) : s <> "" -> String.eqb s "" = false.
Proof. intros H. now apply String.eqb_neq. Qed.

End StringFacts.

(** ** The short hash *)

Lemma shortHash_wf (hash : Hash) :
  wfHash hash = true ->
  String.length (shortHash hash) = 7
  /\ GoStrings.forallb isHex (shortHash hash) = true.
Proof.
  unfold wfHash, shortHash. intros [Hlen Hhex]%andb_true_iff.
  apply Nat.eqb_eq in Hlen. split.
  - rewrite take_length, Hlen. reflexivity.
  - now apply take_forallb.
Qed.

(** ** The tag map and the history walk *)

Section Describe.

Implicit Types (m : gmap string string) (refs : list TagRef).

Lemma foldl_insert_lookup refs m (hash : Hash) :
  foldl (fun m ref => <[tag_Hash ref := tag_Short ref]> m) m refs !! hash
  = match lastTagFor hash refs with
    | Some t => Some t
    | None => m !! hash
    end.
Proof.
  revert m; induction refs as [|ref refs IH]; intros m; simpl; [reflexivity|].
  rewrite IH. destruct (lastTagFor hash refs); [reflexivity|].
  destruct (String.eqb_spec (tag_Hash ref) hash) as [->|Hne].
  - apply lookup_insert_eq.
  - now apply lookup_insert_ne.
Qed.

(** The Go map is only written and read by key; what a key reads back is
    the last reference enumerated for it. *)
Lemma buildTagMap_lookup refs (hash : Hash) :
  buildTagMap refs !! hash = lastTagFor hash refs.
Proof.
  unfold buildTagMap. rewrite foldl_insert_lookup, lookup_empty.
  now destruct (lastTagFor hash refs).
Qed.

Lemma lastTagFor_Some_In refs (hash : Hash) (t : string) :
  lastTagFor hash refs = Some t ->
  exists ref, In ref refs /\ tag_Hash ref = hash /\ tag_Short ref = t.
Proof.
  induction refs as [|ref refs IH]; simpl; [discriminate|].
  destruct (lastTagFor hash refs) as [t'|].
  - intros [= ->]. destruct (IH eq_refl) as (r & Hin & Hr). exists r. auto.
  - destruct (String.eqb_spec (tag_Hash ref) hash); [|discriminate].
    intros [= <-]. exists ref. auto.
Qed.

Lemma lastTagFor_None refs (hash : Hash) :
  lastTagFor hash refs = None <->
  forall ref, In ref refs -> tag_Hash ref <> hash.
Proof.
  induction refs as [|ref refs IH]; simpl; [tauto|].
  destruct (lastTagFor hash refs) as [t'|] eqn:E.
  - split; [discriminate|]. intros H. exfalso.
    destruct (lastTagFor_Some_In refs hash t' E) as (r & Hin & Hh & _).
    eapply H; eauto.
  - destruct (String.eqb_spec (tag_Hash ref) hash) as [Heq|Hne].
    + split; [discriminate|]. intros H. exfalso. eapply H; eauto.
    + split; [|reflexivity]. intros _ r [<-|Hin]; [exact Hne|].
      now apply IH.
Qed.

Lemma walkLog_distance m (commits : list Hash) (d : nat) :
  fst (walkLog m commits d) = d + untaggedPrefix m commits.
Proof.
  revert d; induction commits as [|c cs IH]; intros d; simpl; [lia|].
  destruct (m !! c); simpl; [lia|]. rewrite IH. lia.
Qed.

Lemma walkLog_found m (pre post : list Hash) (c : Hash) (t : string) (d : nat) :
  Forall (fun x => m !! x = None) pre -> m !! c = Some t ->
  walkLog m (pre ++ c :: post) d = (d + length pre, t).
Proof.
  intros Hpre Hc. revert d.
  induction Hpre as [|x pre Hx _ IH]; intros d; simpl.
  - rewrite Hc. f_equal. lia.
  - rewrite Hx, IH. f_equal. lia.
Qed.

Lemma walkLog_none m (commits : list Hash) (d : nat) :
  Forall (fun x => m !! x = None) commits ->
  walkLog m commits d = (d + length commits, "").
Proof.
  intros H. revert d. induction H as [|x cs Hx _ IH]; intros d; simpl.
  - f_equal. lia.
  - rewrite Hx, IH. f_equal. lia.
Qed.

(** What the walk returns is either nothing, after the whole log, or the
    name at the first tagged commit. *)
Lemma walkLog_inv m (commits : list Hash) (d : nat) :
  (Forall (fun x => m !! x = None) commits
   /\ walkLog m commits d = (d + length commits, ""))
  \/ exists pre c post t,
       commits = pre ++ c :: post
       /\ Forall (fun x => m !! x = None) pre /\ m !! c = Some t
       /\ walkLog m commits d = (d + length pre, t).
Proof.
  revert d; induction commits as [|c cs IH]; intros d.
  - left. split; [constructor|]. simpl. f_equal. lia.
  - destruct (m !! c) as [t|] eqn:Hc.
    + right. exists [], c, cs, t. repeat split; [constructor|exact Hc|].
      simpl. rewrite Hc. f_equal. lia.
    + destruct (IH (S d)) as [[Hall Hw]|(pre & c' & post & t & -> & Hpre & Hc' & Hw)].
      * left. split; [now constructor|]. simpl. rewrite Hc, Hw. f_equal. lia.
      * right. exists (c :: pre), c', post, t.
        repeat split; [now constructor|exact Hc'|].
        simpl. rewrite Hc, Hw. f_equal. lia.
Qed.

Lemma tagMapOf_None (repo : Repository) (hash : Hash) :
  tagMapOf repo = None -> getGitDescribe repo hash = ("", "").
Proof.
  unfold tagMapOf, getGitDescribe.
  destruct (repo_Tags repo) as [tagRefs|]; [|reflexivity].
  destruct (tags_err tagRefs); [reflexivity|discriminate].
Qed.

(** [getGitDescribe] once the tag map is built. *)
Lemma getGitDescribe_unfold (repo : Repository) (hash : Hash) m :
  tagMapOf repo = Some m ->
  getGitDescribe repo hash =
  match m !! hash with
  | Some tagName => (tagName, tagName)
  | None =>
      match repo_Log repo hash with
      | Err _ => ("", "")
      | Ok commitIter =>
          let '(distance, foundTag) :=
            walkLog m (commits_yield commitIter) 0 in
          if negb (String.eqb foundTag "") then
            (foundTag +:+ "-" +:+ itoa distance +:+ "-g" +:+ shortHash hash,
             foundTag)
          else ("", "")
      end
  end.
Proof.
  unfold tagMapOf, getGitDescribe.
  destruct (repo_Tags repo) as [tagRefs|]; [|discriminate].
  destruct (tags_err tagRefs); [discriminate|].
  now intros [= <-].
Qed.

Lemma tagMapOf_lookup_isTagName (repo : Repository) m (c : Hash) (t : string) :
  tagMapOf repo = Some m -> m !! c = Some t ->
  exists tagRefs ref,
    repo_Tags repo = Ok tagRefs /\ In ref (tags_yield tagRefs)
    /\ tag_Hash ref = c /\ tag_Short ref = t.
Proof.
  unfold tagMapOf.
  destruct (repo_Tags repo) as [tagRefs|]; [|discriminate].
  destruct (tags_err tagRefs); [discriminate|].
  intros [= <-]. rewrite buildTagMap_lookup.
  intros (ref & Hin & Hh & Hs)%lastTagFor_Some_In.
  exists tagRefs, ref. auto.
Qed.

Lemma tagMapOf_lookup_None (repo : Repository) m tagRefs (ref : TagRef) :
  tagMapOf repo = Some m -> repo_Tags repo = Ok tagRefs ->
  In ref (tags_yield tagRefs) -> m !! tag_Hash ref <> None.
Proof.
  unfold tagMapOf. intros Hm Ht Hin. rewrite Ht in Hm.
  destruct (tags_err tagRefs); [discriminate|].
  injection Hm as <-. rewrite buildTagMap_lookup.
  intros Hnone. eapply lastTagFor_None in Hnone; eauto.
Qed.

Lemma describe_form_ne (t rest : string) : t +:+ "-" +:+ rest <> t.
Proof. apply app_ne_self. discriminate. Qed.

Lemma describe_form_nonempty (t rest : string) : t +:+ "-" +:+ rest <> "".
Proof. destruct t; discriminate. Qed.

Lemma shape_empty_only (repo : Repository) (hash : Hash) :
  shapeEmpty "" "" /\ ~ shapeExact repo "" "" /\ ~ shapeDistance repo hash "" "".
Proof.
  split; [now split|]. split; intros (_ & H & _); now apply H.
Qed.

Lemma shape_exact_only (repo : Repository) (hash : Hash) (t : string) :
  isTagName repo t -> t <> "" ->
  ~ shapeEmpty t t /\ shapeExact repo t t /\ ~ shapeDistance repo hash t t.
Proof.
  intros Hname Hne. split; [intros [H _]; now apply Hne|].
  split; [now repeat split|].
  intros (_ & _ & d & Hd). symmetry in Hd. now apply describe_form_ne in Hd.
Qed.

Lemma shape_distance_only (repo : Repository) (hash : Hash) (t : string) (d : nat) :
  isTagName repo t -> t <> "" ->
  let describe := t +:+ "-" +:+ itoa d +:+ "-g" +:+ shortHash hash in
  ~ shapeEmpty describe t /\ ~ shapeExact repo describe t
  /\ shapeDistance repo hash describe t.
Proof.
  intros Hname Hne describe. split; [intros [_ H]; now apply Hne|].
  split.
  - intros (_ & _ & H). now apply describe_form_ne in H.
  - repeat split; [exact Hname|exact Hne|]. now exists d.
Qed.

End Describe.

(** C10. For every repository state [getGitDescribe] returns a pair of
    exactly one of three shapes: both components empty; both equal to the
    same tag name; or [describe = tag-d-gshort] with [latestTag = tag].
    Hence [latestTag] is non-empty exactly when [describe] is, and
    [latestTag] is always a prefix of [describe]. *)
Theorem getGitDescribe_shapes (repo : Repository) (hash : Hash) :
  let describe := fst (getGitDescribe repo hash) in
  let latestTag := snd (getGitDescribe repo hash) in
  ((shapeEmpty describe latestTag /\ ~ shapeExact repo describe latestTag
    /\ ~ shapeDistance repo hash describe latestTag)
   \/ (~ shapeEmpty describe latestTag /\ shapeExact repo describe latestTag
       /\ ~ shapeDistance repo hash describe latestTag)
   \/ (~ shapeEmpty describe latestTag /\ ~ shapeExact repo describe latestTag
       /\ shapeDistance repo hash describe latestTag))
  /\ (latestTag <> "" <-> describe <> "")
  /\ String.prefix latestTag describe = true.
Proof.
  assert (Hempty :
    let describe := fst (@pair string string "" "") in
    let latestTag := snd (@pair string string "" "") in
    ((shapeEmpty describe latestTag /\ ~ shapeExact repo describe latestTag
      /\ ~ shapeDistance repo hash describe latestTag)
     \/ (~ shapeEmpty describe latestTag /\ shapeExact repo describe latestTag
         /\ ~ shapeDistance repo hash describe latestTag)
     \/ (~ shapeEmpty describe latestTag /\ ~ shapeExact repo describe latestTag
         /\ shapeDistance repo hash describe latestTag))
    /\ (latestTag <> "" <-> describe <> "")
    /\ String.prefix latestTag describe = true).
  { simpl. split; [left; apply shape_empty_only|]. split; [tauto|reflexivity]. }
  destruct (tagMapOf repo) as [m|] eqn:Hm;
    [|rewrite (tagMapOf_None repo hash Hm); exact Hempty].
  rewrite (getGitDescribe_unfold repo hash m Hm).
  assert (Hfound : forall c t, m !! c = Some t -> t <> "" -> isTagName repo t).
  { intros c t Hc _.
    destruct (tagMapOf_lookup_isTagName repo m c t Hm Hc)
      as (tagRefs & ref & H1 & H2 & _ & H3).
    exists tagRefs, ref. auto. }
  destruct (m !! hash) as [t|] eqn:Hh.
  - destruct (String.eqb_spec t "") as [->|Hne]; [exact Hempty|].
    simpl. split; [|split].
    + right; left. apply shape_exact_only; eauto.
    + tauto.
    + rewrite <- (str_app_nil_r t) at 2. apply prefix_app.
  - destruct (repo_Log repo hash) as [commitIter|]; [|exact Hempty].
    destruct (walkLog_inv m (commits_yield commitIter) 0)
      as [[_ ->]|(pre & c & post & t & _ & _ & Hc & ->)]; [exact Hempty|].
    destruct (String.eqb_spec t "") as [->|Hne]; [exact Hempty|].
    simpl. split; [|split].
    + right; right. apply shape_distance_only; eauto.
    + split; intros _; [apply describe_form_nonempty|exact Hne].
    + apply prefix_app.
Qed.

(** C2 as stated fails.  The walk counts HEAD: five commits past the tag
    the distance is 5, while four commits lie strictly between the tag and
    HEAD. *)
Lemma distance_is_not_strictly_between :
  exists m commitIter,
    tagMapOf Sample.fivePast = Some m
    /\ m !! Sample.c5 = None
    /\ repo_Log Sample.fivePast Sample.c5 = Ok commitIter
    /\ In Sample.c0 (commits_yield commitIter)
    /\ m !! Sample.c0 = Some "v1.0.0"
    /\ strictlyBetween m (commits_yield commitIter) = 4
    /\ getGitDescribe Sample.fivePast Sample.c5 = ("v1.0.0-5-g8dc29fc", "v1.0.0")
    /\ fst (getGitDescribe Sample.fivePast Sample.c5)
       <> describeBySpec m (commits_yield commitIter) "v1.0.0" Sample.c5.
Proof.
  exists (buildTagMap [Sample.v100]),
    (mkCommitIter
       [Sample.c5; Sample.c4; Sample.c3; Sample.c2; Sample.c1; Sample.c0] None).
  repeat split; try (vm_compute; reflexivity).
  - vm_compute. tauto.
  - vm_compute. discriminate.
Qed.

(** When every tag is lightweight and named, and tags and log can be
    read, describe is empty exactly when no tag is reachable. *)
Lemma describe_empty_iff_lightweight (repo : Repository) (hash : Hash)
    (tagRefs : TagIter) (commitIter : CommitIter) :
  repo_Tags repo = Ok tagRefs -> tags_err tagRefs = None ->
  repo_Log repo hash = Ok commitIter ->
  (forall ref, In ref (tags_yield tagRefs) ->
     tag_Object ref = Lightweight /\ tag_Short ref <> "") ->
  fst (getGitDescribe repo hash) = "" <-> ~ tagReachable repo hash.
Proof.
  intros Ht Herr Hlog Hlw.
  assert (Hm : tagMapOf repo = Some (buildTagMap (tags_yield tagRefs)))
    by (unfold tagMapOf; now rewrite Ht, Herr).
  set (m := buildTagMap (tags_yield tagRefs)) in *.
  assert (Hkey : forall c t, m !! c = Some t ->
            exists ref, In ref (tags_yield tagRefs)
                        /\ tag_Commit ref = c /\ t <> "").
  { intros c t Hc.
    destruct (tagMapOf_lookup_isTagName repo m c t Hm Hc)
      as (tr & ref & Htr & Hin & Hh & Hs).
    rewrite Ht in Htr. injection Htr as <-.
    destruct (Hlw ref Hin) as [Hobj Hnm].
    exists ref. unfold tag_Commit. rewrite Hobj. subst. auto. }
  assert (Hreach : forall c t, m !! c = Some t -> reachable repo hash c ->
            tagReachable repo hash).
  { intros c t Hc Hr. destruct (Hkey c t Hc) as (ref & Hin & Hcm & _).
    exists tagRefs, ref. rewrite Hcm. auto. }
  rewrite (getGitDescribe_unfold repo hash m Hm), Hlog.
  destruct (m !! hash) as [t|] eqn:Hh.
  - destruct (Hkey hash t Hh) as (_ & _ & _ & Hne). simpl. split.
    + intros ->. now contradiction Hne.
    + intros Hno. contradiction Hno. apply (Hreach hash t Hh). now left.
  - destruct (walkLog_inv m (commits_yield commitIter) 0)
      as [[Hall ->]|(pre & c & post & t & Hcs & _ & Hc & ->)].
    + simpl. split; [|reflexivity]. intros _ (tr & ref & Htr & Hin & Hr).
      rewrite Ht in Htr. injection Htr as <-.
      pose proof (tagMapOf_lookup_None repo m tagRefs ref Hm Ht Hin) as Hsome.
      destruct (Hlw ref Hin) as [Hobj _].
      unfold tag_Commit in Hr. rewrite Hobj in Hr.
      destruct Hr as [Heq|(ci & Hci & Hin')].
      * rewrite Heq in Hsome. contradiction.
      * rewrite Hlog in Hci. injection Hci as <-.
        rewrite Forall_forall in Hall. apply Hsome, Hall.
        now apply list_elem_of_In.
    + destruct (Hkey c t Hc) as (_ & _ & _ & Hne).
      rewrite (eqb_empty_false t Hne). simpl. split.
      * intros H. now apply describe_form_nonempty in H.
      * intros Hno. contradiction Hno. apply (Hreach c t Hc). right.
        exists commitIter. split; [exact Hlog|]. rewrite Hcs.
        apply in_or_app. right. now left.
Qed.

(** C6. The specification has [describe] empty if and only if no tag is
    reachable from HEAD.  Here HEAD is the commit the annotated tag
    [v1.0.0] marks, so a tag is reachable at distance zero, and the code
    returns the empty [describe]: the tag map is keyed by [ref.Hash()],
    the id of the tag object, which is no commit of the history. *)
Theorem describe_empty_at_annotated_tag :
  tagReachable Sample.annotatedAtHead Sample.c0
  /\ getGitDescribe Sample.annotatedAtHead Sample.c0 = ("", "").
Proof.
  split.
  - exists (mkTagIter [Sample.v100annotated] None), Sample.v100annotated.
    repeat split; [now left|now left].
  - vm_compute. reflexivity.
Qed.

(** With HEAD exactly at a tagged commit, the tag shown is the name of
    the last reference to that commit in the tag enumeration. *)
Lemma exact_tag_is_last_enumerated (repo : Repository) (hash : Hash)
    (tagRefs : TagIter) (t : string) :
  repo_Tags repo = Ok tagRefs -> tags_err tagRefs = None ->
  lastTagFor hash (tags_yield tagRefs) = Some t ->
  getGitDescribe repo hash = (t, t).
Proof.
  intros Ht Herr Hlast. unfold getGitDescribe.
  now rewrite Ht, Herr, buildTagMap_lookup, Hlast.
Qed.


(** ** Decimal fields and the timestamp *)

Section Stamp.

Lemma digitChar_isDigit (d : nat) : d < 10 -> isDigit (digitChar d) = true.
Proof.
  intros H. do 10 (destruct d as [|d]; [reflexivity|]). lia.
Qed.

Lemma itoaFuel_digits (fuel n : nat) (acc : string) :
  GoStrings.forallb isDigit acc = true ->
  GoStrings.forallb isDigit (itoaFuel fuel n acc) = true.
Proof.
  revert n acc; induction fuel as [|f IH]; intros n acc Hacc; [exact Hacc|].
  cbn [itoaFuel].
  assert (Hd : GoStrings.forallb isDigit (String (digitChar (n mod 10)) acc) = true).
  { cbn [GoStrings.forallb]. rewrite digitChar_isDigit; [exact Hacc|].
    apply Nat.mod_upper_bound. lia. }
  destruct (Nat.ltb n 10); [exact Hd|now apply IH].
Qed.

Lemma itoaFuel_length (w fuel n : nat) (acc : string) :
  n < 10 ^ S w ->
  String.length (itoaFuel fuel n acc) <= S w + String.length acc.
Proof.
  revert fuel n acc; induction w as [|w IH]; intros fuel n acc Hn;
    (destruct fuel as [|f]; [simpl; lia|]); cbn [itoaFuel];
    destruct (Nat.ltb_spec n 10) as [Hlt|Hge]; try (simpl; lia).
  - simpl in Hn. lia.
  - etransitivity; [apply IH|simpl; lia].
    apply Nat.Div0.div_lt_upper_bound.
    change (10 ^ S (S w)) with (10 * 10 ^ S w) in Hn. exact Hn.
Qed.

Lemma zeros_length (k : nat) : String.length (zeros k) = k.
Proof. induction k; simpl; congruence. Qed.

Lemma zeros_digits (k : nat) : GoStrings.forallb isDigit (zeros k) = true.
Proof. induction k; simpl; [reflexivity|assumption]. Qed.

(** A field that fits its width is exactly [width] digits. *)
Lemma appendInt_fits (n w : nat) :
  n < 10 ^ S w ->
  String.length (appendInt n (S w)) = S w
  /\ GoStrings.forallb isDigit (appendInt n (S w)) = true.
Proof.
  intros Hn. unfold appendInt.
  pose proof (itoaFuel_length w (S n) n "" Hn) as Hlen.
  change (itoaFuel (S n) n "") with (itoa n) in Hlen.
  change (String.length "") with 0 in Hlen. split.
  - rewrite str_length_app, zeros_length. lia.
  - rewrite forallb_app, zeros_digits. now apply itoaFuel_digits.
Qed.

Lemma formatStamp_digits (t : Time) :
  validTime t = true ->
  String.length (formatStamp t) = 14
  /\ GoStrings.forallb isDigit (formatStamp t) = true.
Proof.
  unfold validTime. rewrite !andb_true_iff.
  intros [[[[[[[Hy _] Hmo] _] Hd] Hh] Hmi] Hs].
  apply Nat.ltb_lt in Hy. apply Nat.leb_le in Hmo, Hd, Hh, Hmi, Hs.
  destruct (appendInt_fits (t_year t) 3) as [L1 D1]; [simpl; lia|].
  destruct (appendInt_fits (t_month t) 1) as [L2 D2]; [simpl; lia|].
  destruct (appendInt_fits (t_day t) 1) as [L3 D3]; [simpl; lia|].
  destruct (appendInt_fits (t_hour t) 1) as [L4 D4]; [simpl; lia|].
  destruct (appendInt_fits (t_minute t) 1) as [L5 D5]; [simpl; lia|].
  destruct (appendInt_fits (t_second t) 1) as [L6 D6]; [simpl; lia|].
  unfold formatStamp. split.
  - rewrite !str_length_app, L1, L2, L3, L4, L5, L6. reflexivity.
  - rewrite !forallb_app, D1, D2, D3, D4, D5, D6. reflexivity.
Qed.

End Stamp.

(** ** The walk up to the repository root *)

Section Locator.

Variable env : Env.

Lemma TrimRight_length (s : string) (c : ascii) :
  String.length (GoStrings.TrimRight s c) <= String.length s.
Proof.
  induction s as [|a s IH]; simpl; [lia|].
  destruct (GoStrings.TrimRight s c) as [|b r].
  - destruct (Ascii.eqb a c); simpl; lia.
  - simpl in *. lia.
Qed.

Lemma LastIndex_lt (s : string) (c : ascii) (i : nat) :
  GoStrings.LastIndex s c = Some i -> i < String.length s.
Proof.
  revert i; induction s as [|a s IH]; intros i; simpl; [discriminate|].
  destruct (GoStrings.LastIndex s c) as [j|].
  - intros [= <-]. specialize (IH j eq_refl). lia.
  - destruct (Ascii.eqb a c); [|discriminate]. intros [= <-]. lia.
Qed.

(** One step up either lands on [/] or shortens the path. *)
Lemma parentDir_measure (path : string) :
  parentDir path = "/" \/ String.length (parentDir path) < String.length path.
Proof.
  unfold parentDir. destruct (String.eqb path "/"); [now left|].
  pose proof (TrimRight_length path "/") as Hle.
  destruct (GoStrings.LastIndex (GoStrings.TrimRight path "/") "/")
    as [[|idx]|] eqn:E; [now left| |now left].
  right. apply LastIndex_lt in E. rewrite take_length. lia.
Qed.

Lemma findGitRootFuel_total (fuel : nat) (origPath absPath : string) :
  String.length absPath + 2 <= fuel \/ (absPath = "/" /\ 1 <= fuel) ->
  exists r, findGitRootFuel env fuel origPath absPath = Some r.
Proof.
  revert absPath; induction fuel as [|fuel IH]; intros absPath Hfuel;
    [lia|].
  cbn [findGitRootFuel].
  destruct (hasGitMarker env absPath); [eauto|].
  destruct (String.eqb_spec (parentDir absPath) absPath) as [Heq|Hne];
    [eauto|].
  apply IH.
  assert (Hroot : absPath <> "/") by (intros ->; now apply Hne).
  destruct Hfuel as [Hfuel|[-> _]]; [|contradiction].
  destruct (parentDir_measure absPath) as [->|Hlt]; [right|left]; 
    [split; [reflexivity|lia]|lia].
Qed.

(** The loop of [GetVersionInfo] terminates on every path. *)
Lemma findGitRoot_total (absPath : string) :
  exists r, findGitRoot env absPath = Some r.
Proof. apply findGitRootFuel_total. left. lia. Qed.

Lemma GetVersionInfo_total (repoPath defaultBranch : string) :
  exists r, GetVersionInfo env repoPath defaultBranch = Some r.
Proof.
  unfold GetVersionInfo.
  destruct (wrap _ (env_Abs env repoPath)) as [absPath|e]; [|eauto].
  destruct (findGitRoot_total absPath) as [[root|e] ->]; eauto.
Qed.

Lemma LastIndex_none (s : string) :
  GoStrings.forallb notSlash s = true -> GoStrings.LastIndex s "/" = None.
Proof.
  induction s as [|a s IH]; simpl; [reflexivity|].
  unfold notSlash at 1. intros [Ha Hs]%andb_true_iff.
  rewrite (IH Hs). apply negb_true_iff in Ha. now rewrite Ha.
Qed.

Lemma LastIndex_app (dir name : string) :
  GoStrings.forallb notSlash name = true ->
  GoStrings.LastIndex (dir +:+ String "/" name) "/"
  = Some (String.length dir).
Proof.
  intros Hname. induction dir as [|a dir IH].
  - rewrite str_app_nil_l. simpl. now rewrite (LastIndex_none name Hname).
  - rewrite str_app_cons. simpl. now rewrite IH.
Qed.

Lemma TrimRight_name (name : string) :
  name <> "" -> GoStrings.forallb notSlash name = true ->
  GoStrings.TrimRight name "/" = name.
Proof.
  induction name as [|a name IH]; [congruence|]. intros _.
  simpl. unfold notSlash at 1. intros [Ha Hs]%andb_true_iff.
  apply negb_true_iff in Ha. destruct name as [|b name].
  - simpl. now rewrite Ha.
  - rewrite IH; [reflexivity|discriminate|exact Hs].
Qed.

Lemma TrimRight_app (dir name : string) :
  name <> "" -> GoStrings.forallb notSlash name = true ->
  GoStrings.TrimRight (dir +:+ name) "/" = dir +:+ name.
Proof.
  intros Hne Hname. induction dir as [|a dir IH].
  - rewrite str_app_nil_l. now apply TrimRight_name.
  - rewrite str_app_cons. simpl. rewrite IH.
    destruct (dir +:+ name) eqn:E; [|reflexivity].
    apply (f_equal String.length) in E. rewrite str_length_app in E.
    destruct name; [congruence|simpl in E; lia].
Qed.

Lemma validName_inv (name : string) :
  validName name = true ->
  name <> "" /\ GoStrings.forallb notSlash name = true.
Proof.
  unfold validName. intros [H1 H2]%andb_true_iff. split; [|exact H2].
  apply negb_true_iff in H1. now apply String.eqb_neq.
Qed.

Lemma joinPath_length (dir name : string) :
  name <> "" -> String.length dir < String.length (joinPath dir name).
Proof.
  intros Hne. unfold joinPath.
  destruct (String.eqb_spec dir "/") as [->|_].
  - destruct name; [congruence|]. simpl. lia.
  - rewrite !str_length_app. simpl. lia.
Qed.

(** [parentDir] undoes one [joinPath]. *)
Lemma parentDir_joinPath (dir name : string) :
  dir <> "" -> validName name = true -> parentDir (joinPath dir name) = dir.
Proof.
  intros Hdir [Hne Hname]%validName_inv. unfold joinPath.
  destruct (String.eqb_spec dir "/") as [->|Hroot].
  - unfold parentDir. rewrite str_app_cons, str_app_nil_l.
    destruct (String.eqb_spec (String "/" name) "/") as [[= E]|_];
      [congruence|].
    change (String "/" name) with ("/" +:+ name).
    rewrite TrimRight_app by assumption.
    change ("/" +:+ name) with ("" +:+ String "/" name).
    now rewrite LastIndex_app.
  - unfold parentDir.
    destruct (String.eqb_spec (dir +:+ "/" +:+ name) "/") as [E|_].
    { apply (f_equal String.length) in E. rewrite !str_length_app in E.
      destruct dir; [congruence|]. simpl in E. lia. }
    rewrite <- str_app_assoc.
    rewrite TrimRight_app by assumption.
    rewrite str_app_assoc. change ("/" +:+ name) with (String "/" name).
    rewrite LastIndex_app by assumption.
    destruct dir as [|a dir]; [congruence|].
    cbn [String.length]. rewrite <- (take_app_length (String a dir)) at 2.
    reflexivity.
Qed.

Lemma descend_snoc (root : string) (names : list string) (name : string) :
  descend root (names ++ [name]) = joinPath (descend root names) name.
Proof. unfold descend. now rewrite foldl_app. Qed.

Lemma below_snoc (root : string) (names : list string) (name : string) :
  below root (names ++ [name])
  = below root names ++ [descend root (names ++ [name])].
Proof.
  revert root; induction names as [|n names IH]; intros root; simpl;
    [reflexivity|].
  now rewrite IH.
Qed.

Lemma descend_nonempty (root : string) (names : list string) :
  root <> "" -> descend root names <> "".
Proof.
  intros Hroot. induction names as [|name names IH] using rev_ind;
    [exact Hroot|].
  rewrite descend_snoc. unfold joinPath.
  destruct (String.eqb (descend root names) "/"); [discriminate|].
  destruct (descend root names); [congruence|discriminate].
Qed.

Lemma descend_length (root : string) (names : list string) :
  Forall (fun n => validName n = true) names ->
  length names <= String.length (descend root names).
Proof.
  induction names as [|name names IH] using rev_ind; intros H; [simpl; lia|].
  apply Forall_app in H as [Hnames Hname].
  apply Forall_cons in Hname as [[Hne _]%validName_inv _].
  rewrite descend_snoc, List.length_app. simpl.
  pose proof (joinPath_length (descend root names) name Hne).
  specialize (IH Hnames). lia.
Qed.

(** From a directory below [root], with no marker on the way, the walk
    stops at [root]. *)
Lemma findGitRootFuel_descend (root : string) (names : list string)
    (fuel : nat) (origPath : string) :
  root <> "" ->
  Forall (fun n => validName n = true) names ->
  hasGitMarker env root = true ->
  Forall (fun d => hasGitMarker env d = false) (below root names) ->
  length names < fuel ->
  findGitRootFuel env fuel origPath (descend root names) = Some (Ok root).
Proof.
  intros Hroot Hnames Hgit. revert fuel.
  induction names as [|name names IH] using rev_ind; intros fuel Hbelow Hfuel.
  - destruct fuel as [|fuel]; [simpl in Hfuel; lia|].
    cbn [findGitRootFuel]. simpl. now rewrite Hgit.
  - apply Forall_app in Hnames as [Hnames Hname].
    apply Forall_cons in Hname as [Hname _].
    rewrite below_snoc in Hbelow.
    apply Forall_app in Hbelow as [Hbelow Hlast].
    apply Forall_cons in Hlast as [Hlast _].
    rewrite List.length_app in Hfuel. simpl in Hfuel.
    destruct fuel as [|fuel]; [lia|].
    cbn [findGitRootFuel]. rewrite Hlast.
    rewrite descend_snoc.
    rewrite parentDir_joinPath
      by (try apply descend_nonempty; assumption).
    destruct (String.eqb_spec (descend root names)
                (joinPath (descend root names) name)) as [E|_].
    { apply (f_equal String.length) in E.
      destruct (validName_inv name Hname) as [Hne _].
      pose proof (joinPath_length (descend root names) name Hne). lia. }
    apply IH; [exact Hnames|exact Hbelow|lia].
Qed.

Lemma findGitRoot_descend (root : string) (names : list string) :
  root <> "" ->
  Forall (fun n => validName n = true) names ->
  hasGitMarker env root = true ->
  Forall (fun d => hasGitMarker env d = false) (below root names) ->
  findGitRoot env (descend root names) = Some (Ok root).
Proof.
  intros Hroot Hnames Hgit Hbelow. unfold findGitRoot.
  apply findGitRootFuel_descend; try assumption.
  pose proof (descend_length root names Hnames). lia.
Qed.

End Locator.

(** ** Composing the version *)

Section Composer.

Variable env : Env.

Lemma anyDirty_false_iff (status : Status) :
  anyDirty status = false <->
  forall path fs, In (path, fs) status -> fileDirty fs = false.
Proof.
  induction status as [|[p fs] status IH]; simpl; [tauto|].
  destruct (fileDirty fs) eqn:E.
  - split; [discriminate|]. intros H. rewrite <- E. eapply H; eauto.
  - rewrite IH. split.
    + intros H path fs' [[= <- <-]|Hin]; eauto.
    + intros H path fs' Hin. eapply H; eauto.
Qed.

(** Go ranges over the status map in no fixed order; the answer does not
    depend on it. *)
Lemma anyDirty_Permutation (s1 s2 : Status) :
  Permutation s1 s2 -> anyDirty s1 = anyDirty s2.
Proof.
  induction 1 as [|[p fs] l1 l2 _ IH|[p fs] [q gs] l|l1 l2 l3 _ IH1 _ IH2];
    simpl.
  - reflexivity.
  - now rewrite IH.
  - now destruct (fileDirty fs), (fileDirty gs).
  - congruence.
Qed.

(** What [resolve] puts in each field. *)
Lemma resolve_inv (repo : Repository) (defaultBranch : string) (info : Info) :
  resolve env repo defaultBranch = Ok info ->
  exists head,
    repo_Head repo = Ok head
    /\ GitCommit info = head_Hash head
    /\ GitCommitShort info = shortHash (head_Hash head)
    /\ GitBranch info = (if head_IsBranch head then head_Short head else "HEAD")
    /\ GitBranchSlug info = createBranchSlug (GitBranch info)
    /\ (GitDescribe info, LatestTag info) = getGitDescribe repo (head_Hash head)
    /\ IsDirty info = hasUncommittedChanges repo
    /\ DefaultBranch info
       = (if String.eqb defaultBranch "" then detectDefaultBranch repo
          else defaultBranch)
    /\ BuildTime info = formatBuildTime (env_Now env 0)
    /\ Version info
       = (let base := baseVersion (GitBranch info) (DefaultBranch info)
                        (GitDescribe info) (GitBranchSlug info)
                        (GitCommitShort info) in
          if IsDirty info then base +:+ "-" +:+ formatStamp (env_Now env 1)
          else base).
Proof.
  unfold resolve.
  destruct (repo_Head repo) as [head|e]; [|discriminate].
  cbn [wrap bind].
  destruct (getGitDescribe repo (head_Hash head))
    as [describe latestTag] eqn:E.
  intros [= <-]. exists head. cbn. rewrite E. repeat split; reflexivity.
Qed.

(** Once HEAD resolves, [resolve] cannot fail. *)
Lemma resolve_total (repo : Repository) (defaultBranch : string) (head : HeadRef) :
  repo_Head repo = Ok head ->
  exists info, resolve env repo defaultBranch = Ok info.
Proof.
  intros Hhead. unfold resolve. rewrite Hhead. cbn [wrap bind].
  destruct (getGitDescribe repo (head_Hash head)). eauto.
Qed.

Lemma GetVersionInfo_opened (path defaultBranch : string) (repo : Repository) :
  opened env path repo ->
  GetVersionInfo env path defaultBranch
  = Some (resolve env repo defaultBranch).
Proof.
  intros (absPath & gitRoot & Habs & Hroot & Hopen).
  unfold GetVersionInfo. rewrite Habs. cbn [wrap].
  rewrite Hroot, Hopen. reflexivity.
Qed.

Lemma GetVersionInfo_inv (path defaultBranch : string) (info : Info) :
  GetVersionInfo env path defaultBranch = Some (Ok info) ->
  exists repo,
    opened env path repo /\ resolve env repo defaultBranch = Ok info.
Proof.
  unfold GetVersionInfo, opened.
  destruct (env_Abs env path) as [absPath|e] eqn:Habs; cbn [wrap];
    [|discriminate].
  destruct (findGitRoot env absPath) as [[gitRoot|e]|] eqn:Hfind;
    try discriminate.
  destruct (env_PlainOpen env gitRoot) as [repo|e] eqn:Hopen;
    cbn [wrap bind]; [|discriminate].
  intros [= H]. exists repo. split; [|exact H].
  exists absPath, gitRoot. auto.
Qed.

End Composer.

Lemma sample_opened (repo : Repository) :
  opened (Sample.envOf repo) Sample.workdir repo.
Proof.
  exists Sample.workdir, "/repo". repeat split; vm_compute; reflexivity.
Qed.

(** The record of a resolution, field by field, in terms of the
    repository. *)
Lemma GetVersionInfo_resolved (env : Env) (path defaultBranch : string)
    (repo : Repository) (head : HeadRef) :
  opened env path repo -> repo_Head repo = Ok head ->
  exists info,
    GetVersionInfo env path defaultBranch = Some (Ok info)
    /\ GitCommit info = head_Hash head
    /\ GitCommitShort info = shortHash (head_Hash head)
    /\ GitBranch info = currentBranch head
    /\ GitBranchSlug info = createBranchSlug (currentBranch head)
    /\ (GitDescribe info, LatestTag info) = getGitDescribe repo (head_Hash head)
    /\ IsDirty info = hasUncommittedChanges repo
    /\ DefaultBranch info = trunkOf repo defaultBranch
    /\ Version info
       = (let base := baseVersion (currentBranch head)
                        (trunkOf repo defaultBranch)
                        (fst (getGitDescribe repo (head_Hash head)))
                        (createBranchSlug (currentBranch head))
                        (shortHash (head_Hash head)) in
          if hasUncommittedChanges repo
          then base +:+ "-" +:+ formatStamp (env_Now env 1)
          else base).
Proof.
  intros Hopen Hhead.
  destruct (resolve_total env repo defaultBranch head Hhead) as [info Hres].
  exists info.
  rewrite (GetVersionInfo_opened env path defaultBranch repo Hopen), Hres.
  destruct (resolve_inv env repo defaultBranch info Hres)
    as (head' & Hhead' & Hc & Hs & Hb & Hslug & Hd & Hdirty & Hdef & _ & Hv).
  rewrite Hhead in Hhead'. injection Hhead' as <-.
  fold (currentBranch head) in Hb. fold (trunkOf repo defaultBranch) in Hdef.
  rewrite Hb in Hslug. cbv zeta in Hv |- *.
  rewrite Hb, Hdef, Hslug, Hs, Hdirty in Hv. rewrite <- Hd. cbn [fst].
  repeat split; assumption.
Qed.



(** C1. For every resolved repository state the version follows the
    decision table: on the default branch the base version is [describe]
    when that is non-empty and [branchSlug-gcommitShort] when it is empty;
    when dirty, the version is the base version, one [-], and the
    14-digit timestamp; when clean, the version is the base version. *)
Theorem version_decision_table (env : Env) (path defaultBranch : string)
    (info : Info) :
  GetVersionInfo env path defaultBranch = Some (Ok info) ->
  validTime (env_Now env 1) = true ->
  exists base,
    base = baseVersion (GitBranch info) (DefaultBranch info) (GitDescribe info)
             (GitBranchSlug info) (GitCommitShort info)
    /\ (GitBranch info = DefaultBranch info -> GitDescribe info <> "" ->
        base = GitDescribe info)
    /\ (GitBranch info = DefaultBranch info -> GitDescribe info = "" ->
        base = GitBranchSlug info +:+ "-g" +:+ GitCommitShort info)
    /\ (IsDirty info = true ->
        exists timestamp,
          timestamp = formatStamp (env_Now env 1)
          /\ String.length timestamp = 14
          /\ GoStrings.forallb isDigit timestamp = true
          /\ Version info = base +:+ "-" +:+ timestamp)
    /\ (IsDirty info = false -> Version info = base).
Proof.
  intros (repo & _ & Hres)%GetVersionInfo_inv Hclock.
  destruct (resolve_inv env repo defaultBranch info Hres)
    as (head & _ & _ & _ & _ & _ & _ & _ & _ & _ & Hv).
  eexists. split; [reflexivity|]. cbv zeta in Hv.
  repeat split.
  - intros Hb Hd. unfold baseVersion.
    rewrite Hb, String.eqb_refl, (eqb_empty_false _ Hd). reflexivity.
  - intros Hb Hd. unfold baseVersion.
    rewrite Hb, String.eqb_refl, Hd. reflexivity.
  - intros Hdirty. rewrite Hdirty in Hv.
    destruct (formatStamp_digits _ Hclock) as [Hlen Hdig].
    exists (formatStamp (env_Now env 1)). auto.
  - intros Hclean. now rewrite Hclean in Hv.
Qed.

Lemma version_decision_table_witness :
  GetVersionInfo (Sample.envOf Sample.dirtyFivePast) Sample.workdir ""
  = Some (Ok Sample.dirtyInfo)
  /\ exists timestamp,
       String.length timestamp = 14
       /\ Version Sample.dirtyInfo = "v1.0.0-5-g8dc29fc" +:+ "-" +:+ timestamp.
Proof.
  assert (Hget : GetVersionInfo (Sample.envOf Sample.dirtyFivePast)
                   Sample.workdir "" = Some (Ok Sample.dirtyInfo))
    by (vm_compute; reflexivity).
  split; [exact Hget|].
  destruct (version_decision_table (Sample.envOf Sample.dirtyFivePast)
              Sample.workdir "" Sample.dirtyInfo Hget eq_refl)
    as (base & _ & Hbase & _ & Hdirty & _).
  destruct (Hdirty eq_refl) as (timestamp & _ & Hlen & _ & Hv).
  exists timestamp. split; [exact Hlen|].
  rewrite Hv, (Hbase eq_refl); [reflexivity|discriminate].
Defined.


(** C3. Whenever the current branch of the repository differs from the
    default branch, the resolution returns the version
    [branchSlug-gcommitShort], made of the slug of that branch and the
    short id of the HEAD commit and followed only by the dirty suffix if
    there is one: the tags play no part, even when HEAD is exactly at a
    tag. *)
Theorem off_trunk_ignores_tags (env : Env) (path defaultBranch : string)
    (repo : Repository) (head : HeadRef) :
  opened env path repo ->
  repo_Head repo = Ok head ->
  currentBranch head <> trunkOf repo defaultBranch ->
  exists info,
    GetVersionInfo env path defaultBranch = Some (Ok info)
    /\ GitBranch info = currentBranch head
    /\ DefaultBranch info = trunkOf repo defaultBranch
    /\ GitBranchSlug info = createBranchSlug (currentBranch head)
    /\ GitCommitShort info = shortHash (head_Hash head)
    /\ Version info
       = if hasUncommittedChanges repo
         then (createBranchSlug (currentBranch head) +:+ "-g"
               +:+ shortHash (head_Hash head))
              +:+ "-" +:+ formatStamp (env_Now env 1)
         else createBranchSlug (currentBranch head) +:+ "-g"
              +:+ shortHash (head_Hash head).
Proof.
  intros Hopen Hhead Hb.
  destruct (GetVersionInfo_resolved env path defaultBranch repo head Hopen Hhead)
    as (info & Hget & _ & Hs & Hbr & Hslug & _ & _ & Hdef & Hv).
  exists info. repeat split; try assumption.
  rewrite Hv. cbv zeta. unfold baseVersion.
  apply String.eqb_neq in Hb. rewrite Hb. reflexivity.
Qed.

Lemma off_trunk_ignores_tags_witness :
  getGitDescribe Sample.taggedFeature Sample.c0 = ("v1.0.0", "v1.0.0")
  /\ exists info,
       GetVersionInfo (Sample.envOf Sample.taggedFeature) Sample.workdir ""
       = Some (Ok info)
       /\ Version info = "feature-x-g1197955".
Proof.
  split; [vm_compute; reflexivity|].
  destruct (off_trunk_ignores_tags (Sample.envOf Sample.taggedFeature)
              Sample.workdir "" Sample.taggedFeature
              (mkHeadRef Sample.c0 true "feature/x"))
    as (info & Hget & _ & _ & _ & _ & Hv).
  - apply sample_opened.
  - reflexivity.
  - vm_compute. discriminate.
  - exists info. split; [exact Hget|]. rewrite Hv. vm_compute. reflexivity.
Defined.

(** C5. For every commit that is a key of the tag map, [getGitDescribe]
    returns the bare tag name as [describe] and as [latestTag], whatever
    the history is, and never the [tag-0-ghash] form; so on the default
    branch, with a clean tree and HEAD at the tag [v1.0.0], the version
    is exactly [v1.0.0]. *)
Theorem exact_tag_is_bare (repo : Repository) (hash : Hash)
    (m : gmap string string) (tagName : string) :
  tagMapOf repo = Some m ->
  m !! hash = Some tagName ->
  getGitDescribe repo hash = (tagName, tagName)
  /\ fst (getGitDescribe repo hash) <> tagName +:+ "-0-g" +:+ shortHash hash
  /\ forall env path defaultBranch head info,
       opened env path repo ->
       repo_Head repo = Ok head -> head_Hash head = hash ->
       tagName = "v1.0.0" ->
       GetVersionInfo env path defaultBranch = Some (Ok info) ->
       GitBranch info = DefaultBranch info -> IsDirty info = false ->
       Version info = "v1.0.0".
Proof.
  intros Hm Hh.
  assert (Hres : getGitDescribe repo hash = (tagName, tagName))
    by now rewrite (getGitDescribe_unfold repo hash m Hm), Hh.
  split; [exact Hres|]. split.
  - rewrite Hres. simpl. intros E. symmetry in E.
    now apply describe_form_ne in E.
  - intros env path defaultBranch head info Hopen Hhead Hhash -> Hget Hb Hclean.
    rewrite (GetVersionInfo_opened env path defaultBranch repo Hopen) in Hget.
    injection Hget as Hget.
    destruct (resolve_inv env repo defaultBranch info Hget)
      as (head' & Hhead' & _ & _ & _ & _ & Hd & _ & _ & _ & Hv).
    rewrite Hhead in Hhead'. injection Hhead' as <-.
    rewrite Hhash, Hres in Hd. injection Hd as Hd _.
    cbv zeta in Hv. rewrite Hclean in Hv. rewrite Hv.
    unfold baseVersion. rewrite Hb, String.eqb_refl, Hd. reflexivity.
Qed.

Lemma exact_tag_is_bare_witness :
  getGitDescribe Sample.exactClean Sample.c0 = ("v1.0.0", "v1.0.0")
  /\ Version Sample.exactInfo = "v1.0.0".
Proof.
  destruct (exact_tag_is_bare Sample.exactClean Sample.c0
              (buildTagMap [Sample.v100]) "v1.0.0")
    as (Hd & _ & Hv).
  - reflexivity.
  - vm_compute; reflexivity.
  - split; [exact Hd|].
    apply (Hv (Sample.envOf Sample.exactClean) Sample.workdir ""
              (mkHeadRef Sample.c0 true "main") Sample.exactInfo);
      try reflexivity.
    apply sample_opened.
Defined.


(** *** Tags that mark commits *)

Section Marks.

Variable refs : list TagRef.
Hypothesis lightweight :
  forall ref, In ref refs -> tag_Object ref = Lightweight /\ tag_Short ref <> "".

Lemma marks_false_iff (c : Hash) :
  marks refs c = false <-> forall ref, In ref refs -> tag_Commit ref <> c.
Proof.
  unfold marks. split.
  - intros H ref Hin E.
    assert (existsb (fun r => String.eqb (tag_Commit r) c) refs = true);
      [|congruence].
    apply existsb_exists. exists ref. split; [exact Hin|].
    now apply String.eqb_eq.
  - intros H. destruct (existsb _ refs) eqn:E; [|reflexivity].
    apply existsb_exists in E as (ref & Hin & Heq%String.eqb_eq).
    now contradiction (H ref Hin).
Qed.

Lemma lightweight_commit (ref : TagRef) :
  In ref refs -> tag_Commit ref = tag_Hash ref.
Proof.
  intros Hin. unfold tag_Commit. now destruct (lightweight ref Hin) as [-> _].
Qed.

(** With lightweight tags, the keys of the tag map are the marked
    commits. *)
Lemma tagMap_None_iff_unmarked (c : Hash) :
  buildTagMap refs !! c = None <-> marks refs c = false.
Proof.
  rewrite buildTagMap_lookup, lastTagFor_None, marks_false_iff.
  split; intros H ref Hin; specialize (H ref Hin);
    now rewrite lightweight_commit in *.
Qed.

Lemma visitedBeforeTag_found (pre post : list Hash) (c : Hash) :
  Forall (fun x => buildTagMap refs !! x = None) pre ->
  buildTagMap refs !! c <> None ->
  visitedBeforeTag refs (pre ++ c :: post) = length pre.
Proof.
  intros Hpre Hc. induction Hpre as [|x pre Hx _ IH]; simpl.
  - destruct (marks refs c) eqn:E; [reflexivity|].
    now apply tagMap_None_iff_unmarked in E.
  - apply tagMap_None_iff_unmarked in Hx. now rewrite Hx, IH.
Qed.

End Marks.

(** C2 (amended). For every commit that no tag marks but whose history
    walk reaches a commit that a tag marks, in a repository of lightweight
    tags: [describe = tag-d-gcommitShort] and [latestTag = tag], where
    [tag] names a tag of the first marked commit the walk meets and [d] is
    the number of commits the walk visits before it, HEAD included (one
    more than the number of commits strictly between the tag and HEAD).
    On the default branch with a clean tree that is the version, and five
    commits past the tag [v1.0.0] the version is [v1.0.0-5-g] followed by
    seven hex digits. *)
Theorem describe_distance (repo : Repository) (hash : Hash)
    (tagRefs : TagIter) (commitIter : CommitIter) :
  repo_Tags repo = Ok tagRefs -> tags_err tagRefs = None ->
  (forall ref, In ref (tags_yield tagRefs) ->
     tag_Object ref = Lightweight /\ tag_Short ref <> "") ->
  repo_Log repo hash = Ok commitIter ->
  marks (tags_yield tagRefs) hash = false ->
  (exists c, In c (commits_yield commitIter)
             /\ marks (tags_yield tagRefs) c = true) ->
  let d := visitedBeforeTag (tags_yield tagRefs) (commits_yield commitIter) in
  exists tag c,
    commits_yield commitIter !! d = Some c
    /\ (exists ref, In ref (tags_yield tagRefs)
                    /\ tag_Commit ref = c /\ tag_Short ref = tag)
    /\ getGitDescribe repo hash
       = (tag +:+ "-" +:+ itoa d +:+ "-g" +:+ shortHash hash, tag)
    /\ (forall rest, commits_yield commitIter = hash :: rest ->
          d = S (visitedBeforeTag (tags_yield tagRefs) rest))
    /\ forall env path defaultBranch head,
         opened env path repo ->
         repo_Head repo = Ok head -> head_Hash head = hash ->
         currentBranch head = trunkOf repo defaultBranch ->
         hasUncommittedChanges repo = false ->
         exists info,
           GetVersionInfo env path defaultBranch = Some (Ok info)
           /\ Version info
              = tag +:+ "-" +:+ itoa d +:+ "-g" +:+ shortHash hash
           /\ (d = 5 -> tag = "v1.0.0" -> wfHash hash = true ->
               exists short,
                 Version info = "v1.0.0-5-g" +:+ short
                 /\ String.length short = 7
                 /\ GoStrings.forallb isHex short = true).
Proof.
  intros Ht Herr Hlw Hlog Hhead (c0 & Hin0 & Hc0) d.
  set (refs := tags_yield tagRefs) in *.
  set (m := buildTagMap refs).
  assert (Hm : tagMapOf repo = Some m)
    by (unfold tagMapOf; now rewrite Ht, Herr).
  assert (Hh : m !! hash = None)
    by now apply (tagMap_None_iff_unmarked refs Hlw).
  destruct (walkLog_inv m (commits_yield commitIter) 0)
    as [[Hall _]|(pre & c & post & t & Hcs & Hpre & Hc & Hwalk)].
  { exfalso. rewrite Forall_forall in Hall.
    specialize (Hall c0 (proj2 (list_elem_of_In _ _) Hin0)).
    apply (tagMap_None_iff_unmarked refs Hlw) in Hall. congruence. }
  assert (Hd : d = length pre).
  { unfold d. rewrite Hcs.
    apply (visitedBeforeTag_found refs Hlw); [exact Hpre|].
    fold m. now rewrite Hc. }
  destruct (tagMapOf_lookup_isTagName repo m c t Hm Hc)
    as (tr & ref & Htr & Hin & Hrh & Hrs).
  rewrite Ht in Htr. injection Htr as <-. fold refs in Hin.
  destruct (Hlw ref Hin) as [_ Hne]. rewrite Hrs in Hne.
  assert (Hres : getGitDescribe repo hash
    = (t +:+ "-" +:+ itoa d +:+ "-g" +:+ shortHash hash, t)).
  { rewrite (getGitDescribe_unfold repo hash m Hm), Hh, Hlog, Hwalk, Hd.
    now rewrite (eqb_empty_false t Hne). }
  exists t, c. split; [|split; [|split; [|split]]].
  - rewrite Hd, Hcs. apply list_lookup_middle. reflexivity.
  - exists ref. rewrite (lightweight_commit refs Hlw ref Hin). auto.
  - exact Hres.
  - intros rest Hrest. unfold d. rewrite Hrest. simpl. now rewrite Hhead.
  - intros env path defaultBranch head Hopen Hrh' Hhash Hbranch Hclean.
    destruct (GetVersionInfo_resolved env path defaultBranch repo head
                Hopen Hrh')
      as (info & Hget & _ & _ & _ & _ & _ & _ & _ & Hv).
    exists info. split; [exact Hget|].
    assert (Hver : Version info
                   = t +:+ "-" +:+ itoa d +:+ "-g" +:+ shortHash hash).
    { rewrite Hv. cbv zeta. rewrite Hclean, Hhash, Hres. cbn [fst].
      unfold baseVersion. rewrite Hbranch, String.eqb_refl.
      rewrite eqb_empty_false by apply describe_form_nonempty.
      reflexivity. }
    split; [exact Hver|].
    intros H5 -> Hwf. exists (shortHash hash).
    rewrite Hver, H5. split; [reflexivity|]. now apply shortHash_wf.
Qed.

Lemma describe_distance_witness :
  getGitDescribe Sample.fivePast Sample.c5 = ("v1.0.0-5-g8dc29fc", "v1.0.0")
  /\ exists info,
       GetVersionInfo (Sample.envOf Sample.fivePast) Sample.workdir ""
       = Some (Ok info)
       /\ Version info = "v1.0.0-5-g8dc29fc".
Proof.
  destruct (describe_distance Sample.fivePast Sample.c5
              (mkTagIter [Sample.v100] None)
              (mkCommitIter
                 [Sample.c5; Sample.c4; Sample.c3; Sample.c2; Sample.c1;
                  Sample.c0] None))
    as (tag & c & Hc & (ref & Hin & _ & Hname) & Hres & _ & Hver).
  - reflexivity.
  - reflexivity.
  - intros ref [<-|[]]. split; [reflexivity|discriminate].
  - vm_compute. reflexivity.
  - vm_compute. reflexivity.
  - exists Sample.c0. split; [simpl; tauto|vm_compute; reflexivity].
  - destruct Hin as [<-|[]]. simpl in Hname. subst tag.
    split; [exact Hres|].
    destruct (Hver (Sample.envOf Sample.fivePast) Sample.workdir ""
                (mkHeadRef Sample.c5 true "main"))
      as (info & Hget & Hv & _).
    + apply sample_opened.
    + reflexivity.
    + reflexivity.
    + vm_compute. reflexivity.
    + vm_compute. reflexivity.
    + exists info. split; [exact Hget|exact Hv].
Defined.

(** C8. Whenever the working-tree status cannot be computed (no worktree,
    as in a bare repository, or a failing status read),
    [hasUncommittedChanges] answers [false], and the resolution goes on:
    if the repository opens and HEAD resolves, [GetVersionInfo] returns a
    version record, marked clean. *)
Theorem status_failure_is_clean (repo : Repository) :
  statusUnavailable repo ->
  hasUncommittedChanges repo = false
  /\ forall env path defaultBranch head,
       opened env path repo -> repo_Head repo = Ok head ->
       exists info,
         GetVersionInfo env path defaultBranch = Some (Ok info)
         /\ IsDirty info = false.
Proof.
  intros Hstatus.
  assert (Hclean : hasUncommittedChanges repo = false).
  { unfold hasUncommittedChanges.
    destruct Hstatus as [[e ->]|(worktree & e & -> & ->)]; reflexivity. }
  split; [exact Hclean|].
  intros env path defaultBranch head Hopen Hhead.
  destruct (resolve_total env repo defaultBranch head Hhead) as [info Hres].
  exists info. split.
  - now rewrite (GetVersionInfo_opened env path defaultBranch repo Hopen), Hres.
  - destruct (resolve_inv env repo defaultBranch info Hres)
      as (_ & _ & _ & _ & _ & _ & _ & Hd & _). congruence.
Qed.

Lemma status_failure_is_clean_witness :
  hasUncommittedChanges Sample.bare = false
  /\ exists info,
       GetVersionInfo (Sample.envOf Sample.bare) Sample.workdir ""
       = Some (Ok info)
       /\ IsDirty info = false.
Proof.
  destruct (status_failure_is_clean Sample.bare) as [Hclean Hgo].
  - left. eexists. reflexivity.
  - split; [exact Hclean|].
    apply (Hgo (Sample.envOf Sample.bare) Sample.workdir ""
               (mkHeadRef Sample.c0 true "main")).
    + apply sample_opened.
    + reflexivity.
Defined.


(** C9. Resolving from any directory below the repository root, with no
    repository marker on the way down, gives the same result as resolving
    from the root: the walk up returns the root, the nearest ancestor
    (inclusive) that holds the marker, and nothing after it looks at the
    starting path. *)
Theorem subdirectory_same_result (env : Env) (root : string)
    (names : list string) (rootPath subPath defaultBranch : string) :
  env_Abs env rootPath = Ok root ->
  env_Abs env subPath = Ok (descend root names) ->
  root <> "" ->
  Forall (fun n => validName n = true) names ->
  hasGitMarker env root = true ->
  Forall (fun d => hasGitMarker env d = false) (below root names) ->
  findGitRoot env (descend root names) = Some (Ok root)
  /\ findGitRoot env root = Some (Ok root)
  /\ GetVersionInfo env subPath defaultBranch
     = GetVersionInfo env rootPath defaultBranch.
Proof.
  intros Habs Hsub Hroot Hnames Hgit Hbelow.
  pose proof (findGitRoot_descend env root names Hroot Hnames Hgit Hbelow)
    as Hfind.
  pose proof (findGitRoot_descend env root [] Hroot (Forall_nil_2 _) Hgit
                (Forall_nil_2 _)) as Hfind0.
  change (descend root []) with root in Hfind0.
  split; [exact Hfind|]. split; [exact Hfind0|].
  unfold GetVersionInfo. rewrite Habs, Hsub. cbn [wrap].
  now rewrite Hfind, Hfind0.
Qed.

Lemma subdirectory_same_result_witness :
  GetVersionInfo (Sample.envOf Sample.fivePast) "/repo/pkg/version" ""
  = GetVersionInfo (Sample.envOf Sample.fivePast) "/repo" "".
Proof.
  refine (proj2 (proj2 (subdirectory_same_result
    (Sample.envOf Sample.fivePast) "/repo" ["pkg"; "version"]
    "/repo" "/repo/pkg/version" "" _ _ _ _ _ _))).
  - reflexivity.
  - reflexivity.
  - discriminate.
  - repeat constructor.
  - reflexivity.
  - repeat constructor.
Defined.


(** * Further properties of the package *)

(** ** [parentDir] *)

Section ParentDir.

Lemma take_decomp (n : nat) (s : string) :
  exists rest, s = GoStrings.take n s +:+ rest.
Proof.
  revert s; induction n as [|n IH]; intros [|c s]; simpl;
    try (eexists; reflexivity).
  destruct (IH s) as [rest Hrest]. exists rest.
  rewrite str_app_cons. now f_equal.
Qed.

Lemma TrimRight_decomp (s : string) (c : ascii) :
  exists rest, s = GoStrings.TrimRight s c +:+ rest.
Proof.
  induction s as [|a s [rest IH]]; [now exists ""|]. simpl.
  destruct (GoStrings.TrimRight s c) as [|b r].
  - destruct (Ascii.eqb a c).
    + now exists (String a s).
    + exists rest. rewrite str_app_cons. f_equal. exact IH.
  - exists rest. rewrite str_app_cons. f_equal. exact IH.
Qed.

Lemma TrimRight_snoc (s : string) :
  GoStrings.TrimRight (s +:+ "/") "/" = GoStrings.TrimRight s "/".
Proof.
  induction s as [|a s IH]; [reflexivity|].
  rewrite str_app_cons. simpl. now rewrite IH.
Qed.

Lemma parentDir_slash_name (dir name : string) :
  dir <> "" -> validName name = true ->
  parentDir (dir +:+ "/" +:+ name) = dir.
Proof.
  intros Hdir [Hne Hname]%validName_inv. unfold parentDir.
  destruct (String.eqb_spec (dir +:+ "/" +:+ name) "/") as [E|_].
  { apply (f_equal String.length) in E. rewrite !str_length_app in E.
    destruct dir; [congruence|]. simpl in E. lia. }
  rewrite <- str_app_assoc.
  rewrite TrimRight_app by assumption.
  rewrite str_app_assoc. change ("/" +:+ name) with (String "/" name).
  rewrite LastIndex_app by assumption.
  destruct dir as [|a dir]; [congruence|].
  cbn [String.length]. rewrite <- (take_app_length (String a dir)) at 2.
  reflexivity.
Qed.

End ParentDir.

(** X1. The filesystem root is the only fixed point of [parentDir]: the
    test [parent == absPath] that ends the walk up fires at [/] and
    nowhere else. *)
Theorem parentDir_fixed_point (path : string) :
  parentDir path = path <-> path = "/".
Proof.
  split.
  - intros E. destruct (parentDir_measure path) as [H|H]; [congruence|].
    rewrite E in H. lia.
  - intros ->. reflexivity.
Qed.

(** X2. [parentDir] never returns the empty string: its result is [/] or
    a non-empty proper prefix of its argument. *)
Theorem parentDir_proper_prefix (path : string) :
  parentDir path <> ""
  /\ (parentDir path = "/"
      \/ exists rest, rest <> "" /\ path = parentDir path +:+ rest).
Proof.
  unfold parentDir. destruct (String.eqb path "/");
    [split; [discriminate|now left]|].
  destruct (GoStrings.LastIndex (GoStrings.TrimRight path "/") "/")
    as [[|idx]|] eqn:E; try (split; [discriminate|now left]).
  apply LastIndex_lt in E.
  set (q := GoStrings.TrimRight path "/") in *.
  assert (Hlen : String.length (GoStrings.take (S idx) q) = S idx)
    by (rewrite take_length; lia).
  split.
  - intros H. rewrite H in Hlen. discriminate.
  - right. destruct (take_decomp (S idx) q) as [r1 H1].
    destruct (TrimRight_decomp path "/") as [r2 H2]. fold q in H2.
    exists (r1 +:+ r2). split.
    + intros H. apply (f_equal String.length) in H1.
      rewrite str_length_app, Hlen in H1.
      destruct r1; [simpl in H1; lia|discriminate].
    + rewrite <- str_app_assoc, <- H1. exact H2.
Qed.

(** X3. A trailing slash does not matter to [parentDir]. *)
Theorem parentDir_trailing_slash (path : string) :
  parentDir (path +:+ "/") = parentDir path.
Proof.
  destruct path as [|a path]; [reflexivity|].
  unfold parentDir. rewrite TrimRight_snoc.
  destruct (String.eqb_spec (String a path +:+ "/") "/") as [E|_].
  { apply (f_equal String.length) in E. rewrite str_length_app in E.
    simpl in E. lia. }
  destruct (String.eqb_spec (String a path) "/") as [->|_]; reflexivity.
Qed.

(** X4. [parentDir] undoes the descent into a directory entry: for an
    entry name that is not empty and holds no slash, the parent of
    [dir/name] is [dir], and the parent of [/name] is [/]. *)
Theorem parentDir_of_entry (dir name : string) :
  validName name = true ->
  parentDir ("/" +:+ name) = "/"
  /\ (dir <> "" -> parentDir (dir +:+ "/" +:+ name) = dir).
Proof.
  intros Hname. split.
  - apply (parentDir_joinPath "/" name); [discriminate|exact Hname].
  - intros Hdir. now apply parentDir_slash_name.
Qed.

Lemma parentDir_of_entry_witness :
  parentDir "/version" = "/" /\ parentDir "/repo/pkg/version" = "/repo/pkg".
Proof.
  destruct (parentDir_of_entry "/repo/pkg" "version" eq_refl) as [H1 H2].
  split; [exact H1|]. apply H2. discriminate.
Defined.

(** ** The walk up and the failures of [GetVersionInfo] *)

Section WalkUp.

Variable env : Env.

Lemma ancestor_succ_r (k : nat) (path : string) :
  ancestor (S k) path = ancestor k (parentDir path).
Proof. unfold ancestor. apply Nat.iter_succ_r. Qed.

Lemma ancestor_fixed (k n : nat) (path : string) :
  parentDir (ancestor k path) = ancestor k path ->
  ancestor (n + k) path = ancestor k path.
Proof.
  intros Hfix. induction n as [|n IH]; [reflexivity|].
  change (ancestor (S n + k) path) with (parentDir (ancestor (n + k) path)).
  now rewrite IH.
Qed.

Lemma findGitRootFuel_Ok (fuel : nat) (origPath absPath root : string) :
  findGitRootFuel env fuel origPath absPath = Some (Ok root) ->
  exists k,
    root = ancestor k absPath /\ hasGitMarker env root = true
    /\ forall j, j < k -> hasGitMarker env (ancestor j absPath) = false.
Proof.
  revert absPath; induction fuel as [|fuel IH]; intros absPath;
    [discriminate|].
  cbn [findGitRootFuel].
  destruct (hasGitMarker env absPath) eqn:Hgit.
  - intros [= <-]. exists 0. repeat split; [exact Hgit|]. intros j Hj. lia.
  - destruct (String.eqb (parentDir absPath) absPath); [discriminate|].
    intros (k & Hr & Hm & Hbelow)%IH. exists (S k).
    rewrite ancestor_succ_r. repeat split; [exact Hr|exact Hm|].
    intros [|j] Hj; [exact Hgit|].
    rewrite ancestor_succ_r. apply Hbelow. lia.
Qed.

Lemma findGitRootFuel_Err (fuel : nat) (origPath absPath e : string) :
  findGitRootFuel env fuel origPath absPath = Some (Err e) ->
  e = notFoundMessage origPath
  /\ exists k,
       parentDir (ancestor k absPath) = ancestor k absPath
       /\ forall j, j <= k -> hasGitMarker env (ancestor j absPath) = false.
Proof.
  revert absPath; induction fuel as [|fuel IH]; intros absPath;
    [discriminate|].
  cbn [findGitRootFuel].
  destruct (hasGitMarker env absPath) eqn:Hgit; [discriminate|].
  destruct (String.eqb_spec (parentDir absPath) absPath) as [Hfix|_].
  - intros [= <-]. split; [reflexivity|]. exists 0. split; [exact Hfix|].
    intros j Hj. assert (j = 0) as -> by lia. exact Hgit.
  - intros [He (k & Hfix & Hbelow)]%IH. split; [exact He|]. exists (S k).
    rewrite ancestor_succ_r. split; [exact Hfix|].
    intros [|j] Hj; [exact Hgit|].
    rewrite ancestor_succ_r. apply Hbelow. lia.
Qed.

End WalkUp.

(** X5. When the walk up returns a root, the root is an ancestor of the
    starting path (inclusive), it holds the marker, and no directory nearer
    to the starting path does. *)
Theorem findGitRoot_nearest (env : Env) (absPath root : string) :
  findGitRoot env absPath = Some (Ok root) ->
  exists k,
    root = ancestor k absPath /\ hasGitMarker env root = true
    /\ forall j, j < k -> hasGitMarker env (ancestor j absPath) = false.
Proof. apply findGitRootFuel_Ok. Qed.

Lemma findGitRoot_nearest_witness :
  exists k,
    "/repo" = ancestor k Sample.workdir
    /\ hasGitMarker (Sample.envOf Sample.fivePast) "/repo" = true
    /\ forall j, j < k ->
         hasGitMarker (Sample.envOf Sample.fivePast)
           (ancestor j Sample.workdir) = false.
Proof.
  apply (findGitRoot_nearest (Sample.envOf Sample.fivePast) Sample.workdir
           "/repo").
  vm_compute. reflexivity.
Defined.

(** X6. The walk up fails exactly when no ancestor of the starting path,
    up to and including [/], holds the marker; its error then names the
    starting path. *)
Theorem findGitRoot_not_found (env : Env) (absPath : string) :
  (forall e, findGitRoot env absPath = Some (Err e) ->
             e = notFoundMessage absPath)
  /\ (findGitRoot env absPath = Some (Err (notFoundMessage absPath))
      <-> forall k, hasGitMarker env (ancestor k absPath) = false).
Proof.
  split; [intros e He; now apply findGitRootFuel_Err in He|]. split.
  - intros (_ & k & Hfix & Hbelow)%findGitRootFuel_Err n.
    destruct (Nat.le_gt_cases n k) as [Hle|Hgt]; [now apply Hbelow|].
    replace n with ((n - k) + k) by lia.
    rewrite (ancestor_fixed k (n - k) absPath Hfix). now apply Hbelow.
  - intros Hnone. destruct (findGitRoot_total env absPath) as [[root|e] Hr].
    + destruct (findGitRootFuel_Ok env _ _ _ _ Hr) as (k & -> & Hm & _).
      rewrite Hnone in Hm. discriminate.
    + pose proof Hr as He. apply findGitRootFuel_Err in He as [-> _].
      exact Hr.
Qed.

(** X7. The walk up ends on every path, absolute or not, and so does
    [GetVersionInfo]: the loop never needs more than the length of the
    path plus two rounds. *)
Theorem walk_up_terminates (env : Env) (repoPath defaultBranch : string) :
  (exists r, findGitRoot env repoPath = Some r)
  /\ exists r, GetVersionInfo env repoPath defaultBranch = Some r.
Proof.
  split; [apply findGitRoot_total|apply GetVersionInfo_total].
Qed.

(** X8. [GetVersionInfo] fails in four ways and no other: the path cannot
    be made absolute, no marker is found on the way up, the repository
    cannot be opened, or HEAD cannot be resolved; each error carries its
    own prefix.  Unreadable tags, history or status never fail it. *)
Theorem GetVersionInfo_failures (env : Env) (path defaultBranch e : string) :
  GetVersionInfo env path defaultBranch = Some (Err e) <->
  (exists e0, env_Abs env path = Err e0
              /\ e = "failed to get absolute path: " +:+ e0)
  \/ (exists absPath, env_Abs env path = Ok absPath
                      /\ findGitRoot env absPath = Some (Err e)
                      /\ e = notFoundMessage absPath)
  \/ (exists absPath gitRoot e0,
        env_Abs env path = Ok absPath
        /\ findGitRoot env absPath = Some (Ok gitRoot)
        /\ env_PlainOpen env gitRoot = Err e0
        /\ e = "failed to open repository: " +:+ e0)
  \/ (exists repo e0,
        opened env path repo /\ repo_Head repo = Err e0
        /\ e = "failed to get HEAD: " +:+ e0).
Proof.
  unfold GetVersionInfo, opened. split.
  - destruct (env_Abs env path) as [absPath|e0] eqn:Habs; cbn [wrap].
    2:{ intros [= <-]. left. now exists e0. }
    destruct (findGitRoot env absPath) as [[gitRoot|e1]|] eqn:Hfind;
      [|intros [= <-]|discriminate].
    2:{ right; left. exists absPath. split; [reflexivity|].
        split; [exact Hfind|].
        unfold findGitRoot in Hfind.
        apply findGitRootFuel_Err in Hfind as [He _]. exact He. }
    destruct (env_PlainOpen env gitRoot) as [repo|e0] eqn:Hopen;
      cbn [wrap bind].
    2:{ intros [= <-]. right; right; left. now exists absPath, gitRoot, e0. }
    intros [= Hres]. right; right; right.
    unfold resolve in Hres.
    destruct (repo_Head repo) as [head|e0] eqn:Hhead; cbn [wrap bind] in Hres.
    + destruct (getGitDescribe repo (head_Hash head)). discriminate.
    + injection Hres as <-. exists repo, e0.
      split; [exists absPath, gitRoot; auto|]. split; [exact Hhead|reflexivity].
  - intros [(e0 & Habs & ->)|[(absPath & Habs & Hfind & _)
      |[(absPath & gitRoot & e0 & Habs & Hfind & Hopen & ->)
       |(repo & e0 & (absPath & gitRoot & Habs & Hfind & Hopen) & Hhead & ->)]]];
      rewrite Habs; cbn [wrap]; try reflexivity; rewrite Hfind;
      try reflexivity; rewrite Hopen; cbn [wrap bind]; try reflexivity.
    unfold resolve. rewrite Hhead. reflexivity.
Qed.

(** ** The composed record *)

Section Record.

Lemma app_nonempty_r (s t : string) : t <> "" -> s +:+ t <> "".
Proof.
  intros Ht E. apply (f_equal String.length) in E.
  rewrite str_length_app in E. destruct t; [congruence|simpl in E; lia].
Qed.

Lemma baseVersion_nonempty (branch defaultBranch describe slug short : string) :
  baseVersion branch defaultBranch describe slug short <> "".
Proof.
  unfold baseVersion.
  destruct (String.eqb branch defaultBranch);
    [destruct (String.eqb_spec describe "") as [->|Hne]; simpl|];
    try (apply app_nonempty_r; discriminate).
  exact Hne.
Qed.

Lemma baseVersion_no_describe (branch defaultBranch slug short : string) :
  baseVersion branch defaultBranch "" slug short = slug +:+ "-g" +:+ short.
Proof. unfold baseVersion. now destruct (String.eqb branch defaultBranch). Qed.

Lemma prefix_take (n : nat) (s : string) :
  String.prefix (GoStrings.take n s) s = true.
Proof.
  destruct (take_decomp n s) as [rest H]. rewrite H at 2. apply prefix_app.
Qed.

Lemma getGitDescribe_no_tags (repo : Repository) (hash : Hash)
    (tagRefs : TagIter) :
  repo_Tags repo = Ok tagRefs -> tags_yield tagRefs = [] ->
  getGitDescribe repo hash = ("", "").
Proof.
  intros Ht Hnil. unfold getGitDescribe. rewrite Ht, Hnil.
  destruct (tags_err tagRefs); [reflexivity|].
  change (buildTagMap []) with (∅ : gmap string string).
  rewrite lookup_empty.
  destruct (repo_Log repo hash) as [commitIter|]; [|reflexivity].
  rewrite walkLog_none; [reflexivity|].
  apply Forall_forall. intros c _. apply lookup_empty.
Qed.

End Record.

(** X9. The version of a successful resolution is never the empty
    string. *)
Theorem version_never_empty (env : Env) (path defaultBranch : string)
    (info : Info) :
  GetVersionInfo env path defaultBranch = Some (Ok info) ->
  Version info <> "" /\ Info_String info <> "".
Proof.
  intros (repo & _ & Hres)%GetVersionInfo_inv.
  destruct (resolve_inv env repo defaultBranch info Hres)
    as (head & _ & _ & _ & _ & _ & _ & _ & _ & _ & Hv).
  cbv zeta in Hv. unfold Info_String. rewrite Hv.
  assert (H : (if IsDirty info
               then baseVersion (GitBranch info) (DefaultBranch info)
                      (GitDescribe info) (GitBranchSlug info)
                      (GitCommitShort info)
                    +:+ "-" +:+ formatStamp (env_Now env 1)
               else baseVersion (GitBranch info) (DefaultBranch info)
                      (GitDescribe info) (GitBranchSlug info)
                      (GitCommitShort info)) <> "").
  { destruct (IsDirty info); [apply app_nonempty_r; discriminate|].
    apply baseVersion_nonempty. }
  split; exact H.
Qed.

Lemma version_never_empty_witness :
  Version Sample.featureInfo <> "" /\ Info_String Sample.featureInfo <> "".
Proof.
  apply (version_never_empty (Sample.envOf Sample.taggedFeature)
           Sample.workdir "" Sample.featureInfo).
  vm_compute. reflexivity.
Defined.

(** X10. The short commit id of the record is a prefix of the full commit
    id, of at most seven bytes, and of exactly seven hex digits when the
    commit id is a well-formed hash. *)
Theorem commit_short_is_prefix (env : Env) (path defaultBranch : string)
    (info : Info) :
  GetVersionInfo env path defaultBranch = Some (Ok info) ->
  String.prefix (GitCommitShort info) (GitCommit info) = true
  /\ String.length (GitCommitShort info) <= 7
  /\ (wfHash (GitCommit info) = true ->
      String.length (GitCommitShort info) = 7
      /\ GoStrings.forallb isHex (GitCommitShort info) = true).
Proof.
  intros (repo & _ & Hres)%GetVersionInfo_inv.
  destruct (resolve_inv env repo defaultBranch info Hres)
    as (head & _ & Hc & Hs & _).
  rewrite Hs, Hc. unfold shortHash. split; [apply prefix_take|]. split.
  - rewrite take_length. lia.
  - apply shortHash_wf.
Qed.

Lemma commit_short_is_prefix_witness :
  String.prefix (GitCommitShort Sample.dirtyInfo)
    (GitCommit Sample.dirtyInfo) = true
  /\ String.length (GitCommitShort Sample.dirtyInfo) <= 7
  /\ (wfHash (GitCommit Sample.dirtyInfo) = true ->
      String.length (GitCommitShort Sample.dirtyInfo) = 7
      /\ GoStrings.forallb isHex (GitCommitShort Sample.dirtyInfo) = true).
Proof.
  apply (commit_short_is_prefix (Sample.envOf Sample.dirtyFivePast)
           Sample.workdir "" Sample.dirtyInfo).
  vm_compute. reflexivity.
Defined.

(** X11. In a repository without tags, on any branch, default or not,
    [describe] and [latestTag] are empty and the version is
    [branchSlug-gcommitShort], with the timestamp suffix when dirty. *)
Theorem untagged_version (env : Env) (path defaultBranch : string)
    (repo : Repository) (tagRefs : TagIter) (info : Info) :
  opened env path repo ->
  repo_Tags repo = Ok tagRefs -> tags_yield tagRefs = [] ->
  GetVersionInfo env path defaultBranch = Some (Ok info) ->
  GitDescribe info = "" /\ LatestTag info = ""
  /\ Version info
     = if IsDirty info
       then (GitBranchSlug info +:+ "-g" +:+ GitCommitShort info)
            +:+ "-" +:+ formatStamp (env_Now env 1)
       else GitBranchSlug info +:+ "-g" +:+ GitCommitShort info.
Proof.
  intros Hopen Ht Hnil Hget.
  rewrite (GetVersionInfo_opened env path defaultBranch repo Hopen) in Hget.
  injection Hget as Hres.
  destruct (resolve_inv env repo defaultBranch info Hres)
    as (head & _ & _ & _ & _ & _ & Hd & _ & _ & _ & Hv).
  rewrite (getGitDescribe_no_tags repo _ tagRefs Ht Hnil) in Hd.
  injection Hd as Hd Hl. cbv zeta in Hv.
  rewrite Hd, baseVersion_no_describe in Hv. auto.
Qed.

Lemma untagged_version_witness :
  exists info,
    GetVersionInfo (Sample.envOf Sample.untagged) Sample.workdir ""
    = Some (Ok info)
    /\ GitDescribe info = ""
    /\ Version info = "feature-x-g8dc29fc-20251125115903".
Proof.
  eexists. split; [vm_compute; reflexivity|].
  destruct (untagged_version (Sample.envOf Sample.untagged) Sample.workdir ""
              Sample.untagged (mkTagIter [] None)
              {| Version := "feature-x-g8dc29fc-20251125115903";
                 GitCommit := Sample.c5; GitCommitShort := "8dc29fc";
                 GitBranch := "feature/x"; GitBranchSlug := "feature-x";
                 GitDescribe := ""; LatestTag := "";
                 BuildTime := "2025-11-25T11:59:03Z"; IsDirty := true;
                 DefaultBranch := "main" |})
    as (Hd & _ & Hv).
  - apply sample_opened.
  - reflexivity.
  - reflexivity.
  - vm_compute. reflexivity.
  - split; [exact Hd|reflexivity].
Defined.

(** X12. A tag listing that fails, a tag iteration that ends in an error,
    or a history that cannot be read when HEAD is no key of the tag map,
    never fails the resolution: [describe] and [latestTag] are empty and
    the base version falls back to [branchSlug-gcommitShort]. *)
Theorem describe_failures_absorbed (env : Env) (path defaultBranch : string)
    (repo : Repository) (head : HeadRef) :
  opened env path repo ->
  repo_Head repo = Ok head ->
  (exists e, repo_Tags repo = Err e)
  \/ (exists tagRefs e, repo_Tags repo = Ok tagRefs /\ tags_err tagRefs = Some e)
  \/ (exists m e, tagMapOf repo = Some m /\ m !! head_Hash head = None
                  /\ repo_Log repo (head_Hash head) = Err e) ->
  exists info,
    GetVersionInfo env path defaultBranch = Some (Ok info)
    /\ GitDescribe info = "" /\ LatestTag info = ""
    /\ baseVersion (GitBranch info) (DefaultBranch info) (GitDescribe info)
         (GitBranchSlug info) (GitCommitShort info)
       = GitBranchSlug info +:+ "-g" +:+ GitCommitShort info.
Proof.
  intros Hopen Hhead Hfail.
  assert (Hd : getGitDescribe repo (head_Hash head) = ("", "")).
  { destruct Hfail as [[e He]|[(tagRefs & e & Ht & He)|(m & e & Hm & Hh & Hl)]].
    - apply tagMapOf_None. unfold tagMapOf. now rewrite He.
    - apply tagMapOf_None. unfold tagMapOf. now rewrite Ht, He.
    - now rewrite (getGitDescribe_unfold repo _ m Hm), Hh, Hl. }
  destruct (resolve_total env repo defaultBranch head Hhead) as [info Hres].
  exists info.
  rewrite (GetVersionInfo_opened env path defaultBranch repo Hopen), Hres.
  destruct (resolve_inv env repo defaultBranch info Hres)
    as (head' & Hhead' & _ & _ & _ & _ & Hdesc & _).
  rewrite Hhead in Hhead'. injection Hhead' as <-.
  rewrite Hd in Hdesc. injection Hdesc as -> ->.
  repeat split. apply baseVersion_no_describe.
Qed.

Lemma describe_failures_absorbed_witness :
  exists info,
    GetVersionInfo (Sample.envOf Sample.tagsUnreadable) Sample.workdir ""
    = Some (Ok info)
    /\ GitDescribe info = "" /\ LatestTag info = ""
    /\ baseVersion (GitBranch info) (DefaultBranch info) (GitDescribe info)
         (GitBranchSlug info) (GitCommitShort info)
       = GitBranchSlug info +:+ "-g" +:+ GitCommitShort info.
Proof.
  apply (describe_failures_absorbed (Sample.envOf Sample.tagsUnreadable)
           Sample.workdir "" Sample.tagsUnreadable
           (mkHeadRef Sample.c5 true "main")).
  - apply sample_opened.
  - reflexivity.
  - left. eexists. reflexivity.
Defined.

(** X13. In the detached state the branch is the sentinel [HEAD] and so
    is its slug; unless the default branch is itself called [HEAD], the
    version is [HEAD-gcommitShort] (with the timestamp suffix when
    dirty), whatever the tags. *)
Theorem detached_head_version (env : Env) (path defaultBranch : string)
    (repo : Repository) (head : HeadRef) (info : Info) :
  opened env path repo ->
  repo_Head repo = Ok head -> head_IsBranch head = false ->
  GetVersionInfo env path defaultBranch = Some (Ok info) ->
  GitBranch info = "HEAD" /\ GitBranchSlug info = "HEAD"
  /\ (DefaultBranch info <> "HEAD" ->
      Version info
      = if IsDirty info
        then ("HEAD-g" +:+ GitCommitShort info)
             +:+ "-" +:+ formatStamp (env_Now env 1)
        else "HEAD-g" +:+ GitCommitShort info).
Proof.
  intros Hopen Hhead Hdet Hget.
  rewrite (GetVersionInfo_opened env path defaultBranch repo Hopen) in Hget.
  injection Hget as Hres.
  destruct (resolve_inv env repo defaultBranch info Hres)
    as (head' & Hhead' & _ & _ & Hb & Hslug & _ & _ & _ & _ & Hv).
  rewrite Hhead in Hhead'. injection Hhead' as <-.
  rewrite Hdet in Hb. rewrite Hb in Hslug.
  change (createBranchSlug "HEAD") with "HEAD" in Hslug.
  split; [exact Hb|]. split; [exact Hslug|].
  intros Hdb. cbv zeta in Hv. rewrite Hv. unfold baseVersion.
  rewrite Hb, Hslug.
  assert (E : String.eqb "HEAD" (DefaultBranch info) = false)
    by (apply String.eqb_neq; congruence).
  rewrite E. reflexivity.
Qed.

Lemma detached_head_version_witness :
  exists info,
    GetVersionInfo (Sample.envOf Sample.detached) Sample.workdir ""
    = Some (Ok info)
    /\ GitDescribe info = "v1.0.0-3-ga625406"
    /\ GitBranch info = "HEAD".
Proof.
  eexists. split; [vm_compute; reflexivity|]. split; [reflexivity|].
  refine (proj1 (detached_head_version (Sample.envOf Sample.detached)
    Sample.workdir "" Sample.detached (mkHeadRef Sample.c3 false "HEAD")
    {| Version := "HEAD-ga625406";
       GitCommit := Sample.c3; GitCommitShort := "a625406";
       GitBranch := "HEAD"; GitBranchSlug := "HEAD";
       GitDescribe := "v1.0.0-3-ga625406"; LatestTag := "v1.0.0";
       BuildTime := "2025-11-25T11:59:03Z"; IsDirty := false;
       DefaultBranch := "main" |} _ _ _ _)).
  - apply sample_opened.
  - reflexivity.
  - reflexivity.
  - vm_compute. reflexivity.
Defined.

(** X14. An explicit default branch is used verbatim and switches the
    detection off: two repositories that agree on HEAD, tags, history and
    working tree resolve to the same record, whatever their remote HEAD
    and their branch lists are. *)
Theorem explicit_default_branch (env1 env2 : Env) (path defaultBranch : string)
    (repo1 repo2 : Repository) :
  defaultBranch <> "" ->
  opened env1 path repo1 -> opened env2 path repo2 ->
  env_Now env1 0 = env_Now env2 0 -> env_Now env1 1 = env_Now env2 1 ->
  repo_Head repo1 = repo_Head repo2 ->
  repo_Tags repo1 = repo_Tags repo2 ->
  (forall hash, repo_Log repo1 hash = repo_Log repo2 hash) ->
  repo_Worktree repo1 = repo_Worktree repo2 ->
  GetVersionInfo env1 path defaultBranch = GetVersionInfo env2 path defaultBranch
  /\ forall info, GetVersionInfo env1 path defaultBranch = Some (Ok info) ->
                  DefaultBranch info = defaultBranch.
Proof.
  intros Hdb Ho1 Ho2 Hn0 Hn1 Hhead Htags Hlog Hwt.
  rewrite (GetVersionInfo_opened env1 path defaultBranch repo1 Ho1).
  rewrite (GetVersionInfo_opened env2 path defaultBranch repo2 Ho2).
  split.
  - f_equal. unfold resolve, getGitDescribe, hasUncommittedChanges.
    rewrite (eqb_empty_false _ Hdb), Hn0, Hn1, Hhead, Htags, Hwt.
    destruct (repo_Head repo2) as [head|]; [|reflexivity].
    cbn [wrap bind]. now rewrite Hlog.
  - intros info [= Hres].
    destruct (resolve_inv env1 repo1 defaultBranch info Hres)
      as (_ & _ & _ & _ & _ & _ & _ & _ & Hd & _).
    now rewrite (eqb_empty_false _ Hdb) in Hd.
Qed.

Lemma explicit_default_branch_witness :
  GetVersionInfo (Sample.envOf Sample.fivePast) Sample.workdir "main"
  = GetVersionInfo
      (Sample.envOf
         {| repo_Head := repo_Head Sample.fivePast;
            repo_Tags := repo_Tags Sample.fivePast;
            repo_Log := repo_Log Sample.fivePast;
            repo_Worktree := repo_Worktree Sample.fivePast;
            repo_OriginHEAD := Ok "origin/develop";
            repo_References := Err "unreadable" |})
      Sample.workdir "main".
Proof.
  refine (proj1 (explicit_default_branch _ _ Sample.workdir "main"
                   Sample.fivePast _ _ _ _ _ _ _ _ _ _)).
  - discriminate.
  - apply sample_opened.
  - apply sample_opened.
  - reflexivity.
  - reflexivity.
  - reflexivity.
  - reflexivity.
  - reflexivity.
  - reflexivity.
Defined.

(** ** [detectDefaultBranch] *)

Section Detect.

Lemma branchExists_iff (refs : list RefEntry) (branch : string) :
  branchExists refs branch = true <->
  exists r, In r refs /\ ref_IsBranch r = true /\ ref_Short r = branch.
Proof.
  unfold branchExists. rewrite existsb_exists. split.
  - intros (r & Hin & [Hb Hs]%andb_true_iff). exists r.
    apply String.eqb_eq in Hs. auto.
  - intros (r & Hin & Hb & Hs). exists r. split; [exact Hin|].
    rewrite Hb, Hs, String.eqb_refl. reflexivity.
Qed.

Lemma substring_skip (pre s : string) (n : nat) :
  String.substring (String.length pre) n (pre +:+ s) = String.substring 0 n s.
Proof.
  induction pre as [|c pre IH]; [reflexivity|].
  rewrite str_app_cons. simpl. exact IH.
Qed.

Lemma substring_all (s : string) :
  String.substring 0 (String.length s) s = s.
Proof. induction s as [|c s IH]; simpl; [reflexivity|now rewrite IH]. Qed.

Lemma stripPrefix_app (pre s : string) : stripPrefix pre (pre +:+ s) = s.
Proof.
  unfold stripPrefix. rewrite prefix_app, str_length_app.
  replace (String.length pre + String.length s - String.length pre)
    with (String.length s) by lia.
  now rewrite substring_skip, substring_all.
Qed.

End Detect.

(** X15. Without a resolvable [origin/HEAD] the detected default branch
    is [main] or [master]; it is [master] exactly when the references can
    be listed and hold a branch [master] and no branch [main] (tags and
    remote references of these names do not count). *)
Theorem detect_fallback (repo : Repository) (e : string) :
  repo_OriginHEAD repo = Err e ->
  (detectDefaultBranch repo = "main" \/ detectDefaultBranch repo = "master")
  /\ (detectDefaultBranch repo = "master" <->
      exists refs,
        repo_References repo = Ok refs
        /\ (exists r, In r refs /\ ref_IsBranch r = true
                      /\ ref_Short r = "master")
        /\ ~ (exists r, In r refs /\ ref_IsBranch r = true
                        /\ ref_Short r = "main")).
Proof.
  intros Ho. unfold detectDefaultBranch. rewrite Ho.
  destruct (repo_References repo) as [refs|e'].
  - destruct (branchExists refs "main") eqn:Hmain.
    + split; [now left|]. split; [discriminate|].
      intros (refs' & [= <-] & _ & Hno). contradiction Hno.
      now apply branchExists_iff.
    + assert (Hno : ~ (exists r, In r refs /\ ref_IsBranch r = true
                                 /\ ref_Short r = "main")).
      { intros H%branchExists_iff. congruence. }
      destruct (branchExists refs "master") eqn:Hmaster.
      * split; [now right|]. split; [|reflexivity]. intros _.
        exists refs. repeat split; [|exact Hno].
        now apply branchExists_iff.
      * split; [now left|]. split; [discriminate|].
        intros (refs' & [= <-] & H%branchExists_iff & _). congruence.
  - split; [now left|]. split; [discriminate|].
    intros (refs & [=] & _).
Qed.

Lemma detect_fallback_witness :
  detectDefaultBranch Sample.masterOnly = "master".
Proof.
  destruct (detect_fallback Sample.masterOnly "reference not found"
              eq_refl) as [_ [_ H]].
  apply H. eexists. split; [reflexivity|]. split.
  - exists (mkRefEntry true "master"). repeat split. right. now left.
  - intros (r & [<-|[<-|[]]] & Hb & Hs); discriminate.
Defined.

(** X16. When [origin/HEAD] resolves, the detected default branch is the
    short name of its target without the [origin/] prefix, or that name
    as it is when it has no such prefix; the local branches are not
    looked at. *)
Theorem detect_from_origin (repo : Repository) (refName : string) :
  repo_OriginHEAD repo = Ok refName ->
  (forall branch, refName = "origin/" +:+ branch ->
                  detectDefaultBranch repo = branch)
  /\ (String.prefix "origin/" refName = false ->
      detectDefaultBranch repo = refName).
Proof.
  intros Ho. unfold detectDefaultBranch. rewrite Ho. split.
  - intros branch ->. apply stripPrefix_app.
  - intros Hp. unfold stripPrefix. now rewrite Hp.
Qed.

Lemma detect_from_origin_witness :
  detectDefaultBranch Sample.detached = "main".
Proof.
  apply (proj1 (detect_from_origin Sample.detached "origin/main" eq_refl)).
  reflexivity.
Defined.

(** ** [hasUncommittedChanges] *)

Section Dirty.

Lemma fileDirty_passedOver (fs : FileStatus) :
  fileDirty fs
  = negb (passedOver (Staging fs)) || negb (passedOver (Worktree fs)).
Proof.
  unfold fileDirty, passedOver. now rewrite !negb_orb.
Qed.

Lemma anyDirty_true_iff (status : Status) :
  anyDirty status = true <->
  exists path fs, In (path, fs) status /\ fileDirty fs = true.
Proof.
  induction status as [|[p fs] status IH]; simpl.
  - split; [discriminate|]. intros (_ & _ & [] & _).
  - destruct (fileDirty fs) eqn:E.
    + split; [|reflexivity]. intros _. exists p, fs. auto.
    + rewrite IH. split.
      * intros (q & gs & Hin & Hd). exists q, gs. auto.
      * intros (q & gs & [[= <- <-]|Hin] & Hd); [congruence|].
        exists q, gs. auto.
Qed.

End Dirty.

(** X17. [hasUncommittedChanges] answers [true] exactly when the worktree
    and its status can be read and some file has a staging code or a
    worktree code other than [Untracked] and [Unmodified]. *)
Theorem dirty_iff_tracked_change (repo : Repository) :
  hasUncommittedChanges repo = true <->
  exists worktree status path fs,
    repo_Worktree repo = Ok worktree /\ wt_Status worktree = Ok status
    /\ In (path, fs) status
    /\ (passedOver (Staging fs) = false \/ passedOver (Worktree fs) = false).
Proof.
  unfold hasUncommittedChanges. split.
  - destruct (repo_Worktree repo) as [worktree|]; [|discriminate].
    destruct (wt_Status worktree) as [status|] eqn:Hs; [|discriminate].
    intros (path & fs & Hin & Hd)%anyDirty_true_iff.
    exists worktree, status, path, fs. repeat split; try assumption.
    rewrite fileDirty_passedOver in Hd.
    apply orb_true_iff in Hd as [H|H]; apply negb_true_iff in H; auto.
  - intros (worktree & status & path & fs & -> & -> & Hin & Hd).
    apply anyDirty_true_iff. exists path, fs. split; [exact Hin|].
    rewrite fileDirty_passedOver.
    destruct Hd as [-> | ->]; [reflexivity|apply orb_true_r].
Qed.

(** X18. The answer of [hasUncommittedChanges] depends only on the set of
    changed tracked entries of the status: the order in which the status
    map is ranged over, repeated entries, and untracked or unmodified
    files make no difference. *)
Theorem dirty_ignores_untracked (repo1 repo2 : Repository)
    (worktree1 worktree2 : WorktreeHandle) (status1 status2 : Status) :
  repo_Worktree repo1 = Ok worktree1 -> wt_Status worktree1 = Ok status1 ->
  repo_Worktree repo2 = Ok worktree2 -> wt_Status worktree2 = Ok status2 ->
  (forall path fs, fileDirty fs = true ->
     (In (path, fs) status1 <-> In (path, fs) status2)) ->
  hasUncommittedChanges repo1 = hasUncommittedChanges repo2.
Proof.
  intros Hw1 Hs1 Hw2 Hs2 Hsame. unfold hasUncommittedChanges.
  rewrite Hw1, Hs1, Hw2, Hs2.
  destruct (anyDirty status1) eqn:E1, (anyDirty status2) eqn:E2;
    try reflexivity.
  - apply anyDirty_true_iff in E1 as (p & fs & Hin & Hd).
    assert (anyDirty status2 = true); [|congruence].
    apply anyDirty_true_iff. exists p, fs. split; [|exact Hd].
    now apply (Hsame p fs Hd).
  - apply anyDirty_true_iff in E2 as (p & fs & Hin & Hd).
    assert (anyDirty status1 = true); [|congruence].
    apply anyDirty_true_iff. exists p, fs. split; [|exact Hd].
    now apply (Hsame p fs Hd).
Qed.

Lemma dirty_ignores_untracked_witness :
  hasUncommittedChanges Sample.dirtyFivePast
  = hasUncommittedChanges
      (Sample.repoAt Sample.c5 "main" [Sample.v100]
         (Ok (mkWorktree
                (Ok [("test.txt", mkFileStatus Unmodified Modified);
                     ("README.md", mkFileStatus Unmodified Unmodified);
                     ("test.txt", mkFileStatus Unmodified Modified);
                     ("scratch.log", mkFileStatus Untracked Untracked)])))).
Proof.
  eapply dirty_ignores_untracked; try reflexivity.
  intros path fs Hd. simpl. split.
  - intros [[= <- <-]|[[= <- <-]|[]]]; [discriminate|auto].
  - intros [[= <- <-]|[[= <- <-]|[[= <- <-]|[[= <- <-]|[]]]]];
      try discriminate; auto.
Defined.

(** ** [createBranchSlug] *)

Section Slug.

Lemma createBranchSlug_bytes (branch : string) :
  createBranchSlug branch = GoStrings.filter slugChar (mapBytes slugSubst branch).
Proof.
  unfold createBranchSlug.
  now rewrite regReplace_empty_filter, ReplaceAll_twice_map.
Qed.

Lemma filter_app (p : ascii -> bool) (s t : string) :
  GoStrings.filter p (s +:+ t) = GoStrings.filter p s +:+ GoStrings.filter p t.
Proof.
  induction s as [|c s IH]; [reflexivity|].
  rewrite str_app_cons. simpl. destruct (p c); [|exact IH].
  rewrite str_app_cons. now f_equal.
Qed.

Lemma mapBytes_app (f : ascii -> ascii) (s t : string) :
  mapBytes f (s +:+ t) = mapBytes f s +:+ mapBytes f t.
Proof.
  induction s as [|c s IH]; [reflexivity|].
  rewrite str_app_cons. simpl. rewrite str_app_cons. now f_equal.
Qed.

Lemma filter_length (p : ascii -> bool) (s : string) :
  String.length (GoStrings.filter p s) <= String.length s.
Proof.
  induction s as [|c s IH]; simpl; [lia|]. destruct (p c); simpl; lia.
Qed.

Lemma mapBytes_length (f : ascii -> ascii) (s : string) :
  String.length (mapBytes f s) = String.length s.
Proof. induction s as [|c s IH]; simpl; congruence. Qed.

Lemma slugSubst_slugChar (c : ascii) : slugChar c = true -> slugSubst c = c.
Proof.
  unfold slugSubst. intros Hc.
  destruct (Ascii.eqb_spec c "/") as [->|_]; [discriminate|].
  destruct (Ascii.eqb_spec c "_") as [->|_]; [discriminate|]. reflexivity.
Qed.

Lemma slugChar_slugSubst (c : ascii) :
  slugChar (slugSubst c) = slugChar c || Ascii.eqb c "/" || Ascii.eqb c "_".
Proof.
  unfold slugSubst.
  destruct (Ascii.eqb_spec c "/") as [->|_]; [reflexivity|].
  destruct (Ascii.eqb_spec c "_") as [->|_]; [reflexivity|].
  simpl. now rewrite !orb_false_r.
Qed.

Lemma createBranchSlug_clean (s : string) :
  GoStrings.forallb slugChar s = true -> createBranchSlug s = s.
Proof.
  rewrite createBranchSlug_bytes.
  induction s as [|c s IH]; simpl; [reflexivity|].
  intros [Hc Hs]%andb_true_iff.
  rewrite (slugSubst_slugChar c Hc), Hc, (IH Hs). reflexivity.
Qed.

Lemma createBranchSlug_app (a b : string) :
  createBranchSlug (a +:+ b) = createBranchSlug a +:+ createBranchSlug b.
Proof. now rewrite !createBranchSlug_bytes, mapBytes_app, filter_app. Qed.

End Slug.

(** X19. [createBranchSlug] is idempotent, and the branch names it leaves
    unchanged are exactly those made of [A-Za-z0-9-] only. *)
Theorem createBranchSlug_idempotent (branch : string) :
  createBranchSlug (createBranchSlug branch) = createBranchSlug branch
  /\ (createBranchSlug branch = branch
      <-> GoStrings.forallb slugChar branch = true).
Proof.
  assert (Hall : GoStrings.forallb slugChar (createBranchSlug branch) = true)
    by (rewrite createBranchSlug_bytes; apply filter_forallb).
  split; [now apply createBranchSlug_clean|]. split.
  - intros E. now rewrite E in Hall.
  - apply createBranchSlug_clean.
Qed.

(** X20. [createBranchSlug] works byte by byte: the slug of a
    concatenation is the concatenation of the slugs, and a slug is never
    longer than the branch name. *)
Theorem createBranchSlug_concat (a b : string) :
  createBranchSlug (a +:+ b) = createBranchSlug a +:+ createBranchSlug b
  /\ String.length (createBranchSlug a) <= String.length a.
Proof.
  split; [apply createBranchSlug_app|].
  rewrite createBranchSlug_bytes.
  etransitivity; [apply filter_length|]. now rewrite mapBytes_length.
Qed.

(** X21. The slug does not tell the separators apart: [a/b], [a_b] and
    [a-b] have the same slug, so distinct branches can yield the same
    version string. *)
Theorem createBranchSlug_separators (a b : string) :
  createBranchSlug (a +:+ "/" +:+ b) = createBranchSlug a +:+ "-" +:+ createBranchSlug b
  /\ createBranchSlug (a +:+ "_" +:+ b) = createBranchSlug (a +:+ "/" +:+ b)
  /\ createBranchSlug (a +:+ "-" +:+ b) = createBranchSlug (a +:+ "/" +:+ b).
Proof.
  rewrite !createBranchSlug_app. repeat split.
Qed.

(** X22. The slug is empty exactly when no byte of the branch name is a
    letter, a digit, [-], [/] or [_]; the version then starts with
    [-g]. *)
Theorem createBranchSlug_empty_iff (branch : string) :
  createBranchSlug branch = ""
  <-> GoStrings.forallb slugDropped branch = true.
Proof.
  rewrite createBranchSlug_bytes.
  induction branch as [|c s IH]; simpl; [tauto|].
  unfold slugDropped at 1. rewrite <- slugChar_slugSubst.
  destruct (slugChar (slugSubst c)); simpl; [split; discriminate|exact IH].
Qed.

(** ** More on [getGitDescribe] *)

Section DescribeMore.

Lemma lastTagFor_skip (key : Hash) (l1 l2 : list TagRef) (r : TagRef) :
  tag_Hash r <> key ->
  lastTagFor key (l1 ++ r :: l2) = lastTagFor key (l1 ++ l2).
Proof.
  intros Hne. induction l1 as [|x l1 IH]; simpl.
  - destruct (lastTagFor key l2); [reflexivity|].
    now destruct (String.eqb_spec (tag_Hash r) key).
  - now rewrite IH.
Qed.

Lemma walkLog_ext (m1 m2 : gmap string string) (commits : list Hash) (d : nat) :
  (forall c, In c commits -> m1 !! c = m2 !! c) ->
  walkLog m1 commits d = walkLog m2 commits d.
Proof.
  revert d; induction commits as [|c cs IH]; intros d H; [reflexivity|].
  simpl. rewrite <- (H c) by now left.
  destruct (m1 !! c); [reflexivity|]. apply IH. intros x Hx. apply H. now right.
Qed.

End DescribeMore.

(** X23. When HEAD is no key of the tag map and the history walk starts
    at HEAD, [describe] is either empty or carries a distance of at
    least one: the form [tag-0-ghash] is never produced. *)
Theorem describe_distance_positive (repo : Repository) (hash : Hash)
    (m : gmap string string) (commitIter : CommitIter) (rest : list Hash) :
  tagMapOf repo = Some m -> m !! hash = None ->
  repo_Log repo hash = Ok commitIter ->
  commits_yield commitIter = hash :: rest ->
  getGitDescribe repo hash = ("", "")
  \/ exists t d,
       1 <= d /\ t <> ""
       /\ getGitDescribe repo hash
          = (t +:+ "-" +:+ itoa d +:+ "-g" +:+ shortHash hash, t).
Proof.
  intros Hm Hh Hlog Hcs.
  rewrite (getGitDescribe_unfold repo hash m Hm), Hh, Hlog, Hcs.
  cbn [walkLog]. rewrite Hh.
  destruct (walkLog_inv m rest 1)
    as [[_ ->]|(pre & c & post & t & _ & _ & _ & ->)]; [now left|].
  destruct (String.eqb_spec t "") as [->|Hne]; [now left|].
  right. exists t, (1 + length pre). repeat split; [lia|exact Hne].
Qed.

Lemma describe_distance_positive_witness :
  getGitDescribe Sample.fivePast Sample.c5 = ("", "")
  \/ exists t d,
       1 <= d /\ t <> ""
       /\ getGitDescribe Sample.fivePast Sample.c5
          = (t +:+ "-" +:+ itoa d +:+ "-g" +:+ shortHash Sample.c5, t).
Proof.
  apply (describe_distance_positive Sample.fivePast Sample.c5
           (buildTagMap [Sample.v100])
           (mkCommitIter
              [Sample.c5; Sample.c4; Sample.c3; Sample.c2; Sample.c1;
               Sample.c0] None)
           [Sample.c4; Sample.c3; Sample.c2; Sample.c1; Sample.c0]).
  - reflexivity.
  - vm_compute. reflexivity.
  - vm_compute. reflexivity.
  - reflexivity.
Defined.

(** X24. A tag on a commit that is neither HEAD nor in the history walked
    from HEAD has no effect: taking its reference out of the tag
    enumeration leaves [describe] and [latestTag] as they are. *)
Theorem describe_ignores_unreachable_tag (repo1 repo2 : Repository)
    (hash : Hash) (l1 l2 : list TagRef) (r : TagRef) (err : option string) :
  repo_Tags repo1 = Ok (mkTagIter (l1 ++ r :: l2) err) ->
  repo_Tags repo2 = Ok (mkTagIter (l1 ++ l2) err) ->
  repo_Log repo1 hash = repo_Log repo2 hash ->
  tag_Hash r <> hash ->
  (forall commitIter, repo_Log repo1 hash = Ok commitIter ->
                      ~ In (tag_Hash r) (commits_yield commitIter)) ->
  getGitDescribe repo1 hash = getGitDescribe repo2 hash.
Proof.
  intros Ht1 Ht2 Hlog Hne Hout. unfold getGitDescribe.
  rewrite Ht1, Ht2, <- Hlog. cbn [tags_yield tags_err].
  destruct err; [reflexivity|].
  rewrite !buildTagMap_lookup, (lastTagFor_skip hash l1 l2 r Hne).
  destruct (lastTagFor hash (l1 ++ l2)); [reflexivity|].
  destruct (repo_Log repo1 hash) as [commitIter|]; [|reflexivity].
  rewrite (walkLog_ext (buildTagMap (l1 ++ r :: l2)) (buildTagMap (l1 ++ l2)));
    [reflexivity|].
  intros c Hc. rewrite !buildTagMap_lookup. apply lastTagFor_skip.
  intros E. apply (Hout commitIter eq_refl). now rewrite E.
Qed.

Lemma describe_ignores_unreachable_tag_witness :
  getGitDescribe
    (Sample.repoAt Sample.c3 "main"
       [Sample.v100; mkTagRef "v2.0.0" Sample.c5 Lightweight]
       Sample.cleanTree) Sample.c3
  = getGitDescribe
      (Sample.repoAt Sample.c3 "main" [Sample.v100] Sample.cleanTree)
      Sample.c3.
Proof.
  apply (describe_ignores_unreachable_tag _ _ Sample.c3 [Sample.v100] []
           (mkTagRef "v2.0.0" Sample.c5 Lightweight) None).
  - reflexivity.
  - reflexivity.
  - reflexivity.
  - discriminate.
  - intros commitIter [= <-]. simpl.
    intros [H|[H|[H|[H|[]]]]]; discriminate.
Defined.

(** ** The build time and the report *)

Section Report.

Lemma filter_all (p : ascii -> bool) (s : string) :
  GoStrings.forallb p s = true -> GoStrings.filter p s = s.
Proof.
  induction s as [|c s IH]; simpl; [reflexivity|].
  intros [Hc Hs]%andb_true_iff. now rewrite Hc, (IH Hs).
Qed.

Lemma countByte_app (c : ascii) (s t : string) :
  countByte c (s +:+ t) = countByte c s + countByte c t.
Proof.
  induction s as [|a s IH]; [reflexivity|].
  rewrite str_app_cons. simpl. rewrite IH. lia.
Qed.

End Report.

(** X25. For a clock reading within the calendar ranges the build time of
    the record has twenty bytes, and its digits, read in order, are the
    fourteen digits of the timestamp format of the same reading. *)
Theorem build_time_shape (env : Env) (path defaultBranch : string)
    (info : Info) :
  GetVersionInfo env path defaultBranch = Some (Ok info) ->
  validTime (env_Now env 0) = true ->
  String.length (BuildTime info) = 20
  /\ GoStrings.filter isDigit (BuildTime info) = formatStamp (env_Now env 0).
Proof.
  intros (repo & _ & Hres)%GetVersionInfo_inv Hclock.
  destruct (resolve_inv env repo defaultBranch info Hres)
    as (head & _ & _ & _ & _ & _ & _ & _ & _ & Hb & _).
  rewrite Hb. clear Hb Hres. set (t := env_Now env 0) in *.
  unfold validTime in Hclock. rewrite !andb_true_iff in Hclock.
  destruct Hclock as [[[[[[[Hy _] Hmo] _] Hd] Hh] Hmi] Hs].
  apply Nat.ltb_lt in Hy. apply Nat.leb_le in Hmo, Hd, Hh, Hmi, Hs.
  destruct (appendInt_fits (t_year t) 3) as [L1 D1]; [simpl; lia|].
  destruct (appendInt_fits (t_month t) 1) as [L2 D2]; [simpl; lia|].
  destruct (appendInt_fits (t_day t) 1) as [L3 D3]; [simpl; lia|].
  destruct (appendInt_fits (t_hour t) 1) as [L4 D4]; [simpl; lia|].
  destruct (appendInt_fits (t_minute t) 1) as [L5 D5]; [simpl; lia|].
  destruct (appendInt_fits (t_second t) 1) as [L6 D6]; [simpl; lia|].
  unfold formatBuildTime, formatStamp. split.
  - rewrite !str_length_app, L1, L2, L3, L4, L5, L6. reflexivity.
  - rewrite !filter_app.
    rewrite (filter_all _ _ D1), (filter_all _ _ D2), (filter_all _ _ D3),
      (filter_all _ _ D4), (filter_all _ _ D5), (filter_all _ _ D6).
    change (GoStrings.filter isDigit "-") with "".
    change (GoStrings.filter isDigit "T") with "".
    change (GoStrings.filter isDigit ":") with "".
    change (GoStrings.filter isDigit "Z") with "".
    rewrite !str_app_nil_l, str_app_nil_r. reflexivity.
Qed.

Lemma build_time_shape_witness :
  String.length (BuildTime Sample.exactInfo) = 20
  /\ GoStrings.filter isDigit (BuildTime Sample.exactInfo)
     = formatStamp Sample.noon.
Proof.
  apply (build_time_shape (Sample.envOf Sample.exactClean) Sample.workdir ""
           Sample.exactInfo).
  - vm_compute. reflexivity.
  - reflexivity.
Defined.

(** X26. The detailed report has one line per label, seven in all, plus
    whatever line feeds its fields bring along; and it is the same for
    any two records that agree on [Version], [GitCommit], [GitBranch],
    [DefaultBranch], [LatestTag], [BuildTime] and [IsDirty]: nothing of
    [GitDescribe], [GitBranchSlug] and [GitCommitShort] goes into it. *)
Theorem DetailedString_lines (i : Info) :
  countByte (ascii_of_nat 10) (DetailedString i)
  = 6 + countByte (ascii_of_nat 10) (Version i)
    + countByte (ascii_of_nat 10) (GitCommit i)
    + countByte (ascii_of_nat 10) (GitBranch i)
    + countByte (ascii_of_nat 10) (DefaultBranch i)
    + countByte (ascii_of_nat 10) (LatestTag i)
    + countByte (ascii_of_nat 10) (BuildTime i)
  /\ forall describe slug short,
       DetailedString
         {| Version := Version i; GitCommit := GitCommit i;
            GitCommitShort := short; GitBranch := GitBranch i;
            GitBranchSlug := slug; GitDescribe := describe;
            LatestTag := LatestTag i; BuildTime := BuildTime i;
            IsDirty := IsDirty i; DefaultBranch := DefaultBranch i |}
       = DetailedString i.
Proof.
  split; [|reflexivity].
  unfold DetailedString. rewrite !countByte_app.
  assert (Htag : countByte (ascii_of_nat 10)
                   (if String.eqb (LatestTag i) "" then "(none)"
                    else LatestTag i)
                 = countByte (ascii_of_nat 10) (LatestTag i)).
  { destruct (String.eqb_spec (LatestTag i) "") as [->|_]; reflexivity. }
  rewrite Htag.
  assert (Hdirty : countByte (ascii_of_nat 10)
                     (if IsDirty i then "dirty" else "clean") = 0)
    by now destruct (IsDirty i).
  rewrite Hdirty.
  change (countByte (ascii_of_nat 10) newline) with 1.
  change (countByte (ascii_of_nat 10) "Version:        ") with 0.
  change (countByte (ascii_of_nat 10) "Commit:         ") with 0.
  change (countByte (ascii_of_nat 10) "Branch:         ") with 0.
  change (countByte (ascii_of_nat 10) "Default Branch: ") with 0.
  change (countByte (ascii_of_nat 10) "Latest Tag:     ") with 0.
  change (countByte (ascii_of_nat 10) "Build Time:     ") with 0.
  change (countByte (ascii_of_nat 10) "Dirty:          ") with 0.
  lia.
Qed.

(** X27. [GetVersionInfo] returns a record exactly when the path leads to
    a repository (it can be made absolute, a marker is found on the way
    up, the root opens) whose HEAD resolves; nothing else is needed. *)
Theorem GetVersionInfo_succeeds_iff (env : Env) (path defaultBranch : string) :
  (exists info, GetVersionInfo env path defaultBranch = Some (Ok info))
  <-> exists repo head, opened env path repo /\ repo_Head repo = Ok head.
Proof.
  split.
  - intros (info & (repo & Hopen & Hres)%GetVersionInfo_inv).
    destruct (resolve_inv env repo defaultBranch info Hres)
      as (head & Hhead & _).
    now exists repo, head.
  - intros (repo & head & Hopen & Hhead).
    destruct (resolve_total env repo defaultBranch head Hhead) as [info Hres].
    exists info.
    now rewrite (GetVersionInfo_opened env path defaultBranch repo Hopen), Hres.
Qed.
